(** * Nexus Channel origin commands: a shallow embedding

    Embedding of [nexus_keycode/protocols/channel_origin_commands.py]:
    the token base class, its digit serialisation, and the three families
    of builders (generic controller action, specific linked accessory,
    link challenge), together with the parts of Python and of the
    [bitstring] and [siphash] packages the module relies on. *)

From Stdlib Require Import ZArith String Ascii List Bool Lia.
From Stdlib Require Import Strings.Byte.
Import ListNotations.

Local Open Scope Z_scope.

(** ** Python values used by the module *)

(** A Python [str] is a sequence of characters, a [bytes] a sequence of
    octets. *)
Definition str := list ascii.
Definition bytes := list byte.

Definition lit (s : string) : str := list_ascii_of_string s.

(** Exceptions the module can raise: [assert] failures, the [TypeError] of
    the token constructor, [bitstring.CreationError] from [bitstring.pack],
    and [ValueError] from [int(...)]. *)
Inductive exn : Type :=
  | AssertionError
  | TypeError
  | CreationError
  | ValueError.

Inductive result (A : Type) : Type :=
  | Ok (a : A)
  | Raise (e : exn).
Arguments Ok {A} a.
Arguments Raise {A} e.

Definition bind {A B : Type} (m : result A) (k : A -> result B) : result B :=
  match m with
  | Ok a => k a
  | Raise e => Raise e
  end.

Definition assert_ (b : bool) : result unit :=
  if b then Ok tt else Raise AssertionError.

Declare Scope py_scope.
Delimit Scope py_scope with py.
Notation "x <- m ;; k" := (bind m (fun x => k))
  (at level 61, m at next level, right associativity) : py_scope.
Notation "'assert' b ;; k" := (bind (assert_ b) (fun _ => k))
  (at level 61, b at next level, right associativity) : py_scope.
Local Open Scope py_scope.

(** ** Decimal formatting *)

(** The character of a decimal digit [d], for [0 <= d < 10]. *)
Definition digit_char (d : Z) : ascii := ascii_of_nat (48 + Z.to_nat d).

Definition is_digit (c : ascii) : bool :=
  ((48 <=? nat_of_ascii c) && (nat_of_ascii c <=? 57))%nat.

Definition digit_val (c : ascii) : Z := Z.of_nat (nat_of_ascii c) - 48.

(** Decimal digits of a non-negative integer, most significant first, with
    no leading zero (["0"] for zero).  [fuel] bounds the number of digits. *)
Fixpoint dec_aux (fuel : nat) (v : Z) (acc : str) : str :=
  match fuel with
  | O => acc
  | S f =>
      let acc' := digit_char (v mod 10) :: acc in
      if v / 10 =? 0 then acc' else dec_aux f (v / 10) acc'
  end.

Definition dec_nonneg (v : Z) : str :=
  dec_aux (S (Z.to_nat (Z.log2 v))) v [].

(** [str(v)] and ["{}".format(v)] for an [int]. *)
Definition str_int (v : Z) : str :=
  if v <? 0 then "-"%char :: dec_nonneg (- v) else dec_nonneg v.

Definition zfill (width : nat) (s : str) : str :=
  repeat "0"%char (width - length s) ++ s.

(** ["{:0<width>d}".format(v)]: sign-aware zero padding to at least
    [width] characters. *)
Definition format_0d (width : nat) (v : Z) : str :=
  if v <? 0 then "-"%char :: zfill (width - 1) (dec_nonneg (- v))
  else zfill width (dec_nonneg v).

(** [s[-n:]]: the last [n] characters; the whole string when [n] is zero
    (Python reads [-0] as [0]) or when [s] is shorter than [n]. *)
Definition slice_last (n : nat) (s : str) : str :=
  match n with
  | O => s
  | _ => skipn (length s - n) s
  end.

(** [int(s)] restricted to strings of decimal digits, which are the only
    arguments the module passes; anything else is a [ValueError]. *)
Definition int_of_str (s : str) : result Z :=
  match s with
  | [] => Raise ValueError
  | _ =>
      if forallb is_digit s
      then Ok (fold_left (fun acc c => acc * 10 + digit_val c) s 0)
      else Raise ValueError
  end.

(** The [n] least-significant decimal digits of [v], most significant
    first: the reading of "n least-significant decimal digits" that the
    token format documents. *)
Fixpoint ls_digits (n : nat) (v : Z) : str :=
  match n with
  | O => []
  | S k => ls_digits k (v / 10) ++ [digit_char (v mod 10)]
  end.

(** ** Little-endian fields, as [bitstring.pack] lays them out *)

Definition byte_of_Z (z : Z) : byte :=
  match Byte.of_N (Z.to_N (z mod 256)) with
  | Some b => b
  | None => x00
  end.

Definition Z_of_byte (b : byte) : Z := Z.of_N (Byte.to_N b).

Fixpoint le_bytes (n : nat) (v : Z) : bytes :=
  match n with
  | O => []
  | S k => byte_of_Z v :: le_bytes k (Z.shiftr v 8)
  end.

Fixpoint le_decode (bs : bytes) : Z :=
  match bs with
  | [] => 0
  | b :: rest => Z_of_byte b + 256 * le_decode rest
  end.

(** One ["uintle:<bits>=<name>"] token: [bitstring] refuses a width that
    is not a whole number of bytes, a negative value, and a value that does
    not fit in [bits] bits. *)
Definition uintle (bits : nat) (v : Z) : result bytes :=
  if negb (Nat.eqb (Nat.modulo bits 8) 0) then Raise CreationError
  else if (v <? 0) || (2 ^ Z.of_nat bits <=? v) then Raise CreationError
  else Ok (le_bytes (Nat.div bits 8) v).

(** [bitstring.pack(fmt, **kwargs).bytes] for a format made of [uintle]
    tokens, given as (width in bits, value) pairs in format order. *)
Fixpoint pack (fields : list (nat * Z)) : result bytes :=
  match fields with
  | [] => Ok []
  | (bits, v) :: rest =>
      b <- uintle bits v ;;
      bs <- pack rest ;;
      Ok (b ++ bs)
  end.

(** ** SipHash-2-4

    The keyed hash of the [siphash] package, [SipHash_2_4(key, msg).hash()],
    on 64-bit words written as integers with explicit wrap-around.  The
    builders below are stated over an arbitrary keyed hash; this is the one
    the module is run with. *)
Module SipHash.

Definition mask64 : Z := 0xFFFFFFFFFFFFFFFF.

Definition add64 (a b : Z) : Z := Z.land (a + b) mask64.

Definition rotl64 (x b : Z) : Z :=
  Z.land (Z.lor (Z.shiftl x b) (Z.shiftr x (64 - b))) mask64.

Record state : Type := State { v0 : Z; v1 : Z; v2 : Z; v3 : Z }.

Definition sipround (s : state) : state :=
  let '(State a b c d) := s in
  let a := add64 a b in
  let b := Z.lxor (rotl64 b 13) a in
  let a := rotl64 a 32 in
  let c := add64 c d in
  let d := Z.lxor (rotl64 d 16) c in
  let a := add64 a d in
  let d := Z.lxor (rotl64 d 21) a in
  let c := add64 c b in
  let b := Z.lxor (rotl64 b 17) c in
  let c := rotl64 c 32 in
  State a b c d.

Definition absorb (s : state) (m : Z) : state :=
  let '(State a b c d) := s in
  let '(State a b c d) := sipround (sipround (State a b c (Z.lxor d m))) in
  State (Z.lxor a m) b c d.

Fixpoint compress (s : state) (msg : bytes) (len : Z) : state :=
  match msg with
  | b0 :: b1 :: b2 :: b3 :: b4 :: b5 :: b6 :: b7 :: rest =>
      compress (absorb s (le_decode [b0; b1; b2; b3; b4; b5; b6; b7]))
               rest len
  | tail =>
      absorb s (Z.lor (Z.shiftl (len mod 256) 56) (le_decode tail))
  end.

Definition hash (key msg : bytes) : Z :=
  let k0 := le_decode (firstn 8 key) in
  let k1 := le_decode (firstn 8 (skipn 8 key)) in
  let s := State (Z.lxor k0 0x736f6d6570736575)
                 (Z.lxor k1 0x646f72616e646f6d)
                 (Z.lxor k0 0x6c7967656e657261)
                 (Z.lxor k1 0x7465646279746573) in
  let '(State a b c d) := compress s msg (Z.of_nat (length msg)) in
  let '(State a b c d) :=
    sipround (sipround (sipround (sipround (State a b (Z.lxor c 0xff) d)))) in
  Z.lxor (Z.lxor a b) (Z.lxor c d).

End SipHash.

(** ** Enumerations *)

(** [OriginCommandType]: the wire-level type codes. *)
Module OriginCommandType.
Inductive t : Type :=
  | GENERIC_CONTROLLER_ACTION
  | UNLOCK_ACCESSORY
  | UNLINK_ACCESSORY
  | LINK_ACCESSORY_MODE_3.

Definition value (x : t) : Z :=
  match x with
  | GENERIC_CONTROLLER_ACTION => 0
  | UNLOCK_ACCESSORY => 1
  | UNLINK_ACCESSORY => 2
  | LINK_ACCESSORY_MODE_3 => 9
  end.
End OriginCommandType.

(** [GenericControllerActionToken.GenericControllerActionType]. *)
Module GenericControllerActionType.
Inductive t : Type :=
  | UNLINK_ALL_ACCESSORIES
  | UNLOCK_ALL_ACCESSORIES.

Definition value (x : t) : Z :=
  match x with
  | UNLINK_ALL_ACCESSORIES => 0
  | UNLOCK_ALL_ACCESSORIES => 1
  end.
End GenericControllerActionType.

(** [ChannelOriginAction]: the business-level actions. *)
Module ChannelOriginAction.
Inductive t : Type :=
  | UNLINK_ALL_ACCESSORIES
  | UNLOCK_ALL_ACCESSORIES
  | UNLOCK_ACCESSORY
  | UNLINK_ACCESSORY
  | LINK_ACCESSORY_MODE_3.
End ChannelOriginAction.

(** The keyword arguments of [ChannelOriginAction.build]: each of the five
    parameter names the builders know is either passed or not. *)
Record kwargs : Type := Kwargs {
  kw_controller_command_count : option Z;
  kw_accessory_command_count : option Z;
  kw_accessory_nexus_id : option Z;
  kw_accessory_sym_key : option bytes;
  kw_controller_sym_key : option bytes
}.

(** What a caller may hand to a token constructor as [type_]: the base
    constructor accepts members of [OriginCommandType] only. *)
Inductive type_arg : Type :=
  | OfOriginCommandType (x : OriginCommandType.t)
  | OfGenericControllerActionType (x : GenericControllerActionType.t).

(** ** Tokens *)

(** The attributes a [ChannelOriginCommandToken] carries. *)
Record token : Type := Token {
  type_code : Z;
  body : str;
  auth : str
}.

(** A [siphash.SipHash_2_4(key, msg)] object, hashed only when its
    [hash()] method is called. *)
Record SipHash_2_4 : Type := SipHash_2_4_new {
  sip_key : bytes;
  sip_msg : bytes
}.

Section Tokens.

(** [siphash.SipHash_2_4(key, msg).hash()]. *)
Variable mac : bytes -> bytes -> Z.

(** [nexus_keycode.protocols.utils.full_obscure(digits,
    obscured_digit_count=...)]. *)
Variable full_obscure : str -> nat -> str.

Definition hash (f : SipHash_2_4) : Z := mac (sip_key f) (sip_msg f).

(** [ChannelOriginCommandToken.__init__] *)
Definition ChannelOriginCommandToken_init
    (type_ : type_arg) (body auth : str) : result token :=
  match type_ with
  | OfOriginCommandType x => Ok (Token (OriginCommandType.value x) body auth)
  | _ => Raise TypeError
  end.

(** [ChannelOriginCommandToken.to_digits] *)
Definition to_digits (self : token) (obscured : bool) : str :=
  let result := str_int (type_code self) ++ body self ++ auth self in
  if obscured then
    let obscured_digit_count := (length result - length (auth self))%nat in
    full_obscure result obscured_digit_count
  else result.

(** [ChannelOriginCommandToken.digits_from_siphash] *)
Definition digits_from_siphash (siphash_function : SipHash_2_4)
    (digits : nat) : str :=
  slice_last digits
    (format_0d digits (Z.land (hash siphash_function) 0xffffffff)).

(** *** Generic controller actions *)

Definition GenericControllerActionToken_origin_command_type :=
  OriginCommandType.GENERIC_CONTROLLER_ACTION.

(** [GenericControllerActionToken.__init__]: the [type_] argument is
    ignored in favour of the class attribute. *)
Definition GenericControllerActionToken_init
    (type_ : type_arg) (controller_command : str) (auth : SipHash_2_4)
    : result token :=
  ChannelOriginCommandToken_init
    (OfOriginCommandType GenericControllerActionToken_origin_command_type)
    controller_command
    (digits_from_siphash auth 6).

Definition _generic_controller_action_builder
    (type_ : GenericControllerActionType.t)
    (controller_command_count : Z)
    (controller_sym_key : bytes) : result token :=
  assert (Nat.eqb (length controller_sym_key) 16) ;;
  let controller_command_value := GenericControllerActionType.value type_ in
  packed_target_inputs <-
    pack [ (32%nat, controller_command_count);
           (8%nat, OriginCommandType.value
                     GenericControllerActionToken_origin_command_type);
           (32%nat, controller_command_value) ] ;;
  assert (Nat.eqb (length packed_target_inputs) 9) ;;
  let auth := SipHash_2_4_new controller_sym_key packed_target_inputs in
  GenericControllerActionToken_init
    (OfGenericControllerActionType type_)
    (format_0d 2 controller_command_value)
    auth.

Definition unlink_all_accessories
    (controller_command_count : Z) (controller_sym_key : bytes)
    : result token :=
  _generic_controller_action_builder
    GenericControllerActionType.UNLINK_ALL_ACCESSORIES
    controller_command_count controller_sym_key.

Definition unlock_all_accessories
    (controller_command_count : Z) (controller_sym_key : bytes)
    : result token :=
  _generic_controller_action_builder
    GenericControllerActionType.UNLOCK_ALL_ACCESSORIES
    controller_command_count controller_sym_key.

(** *** Specific linked accessories *)

(** [SpecificLinkedAccessoryToken.__init__] *)
Definition SpecificLinkedAccessoryToken_init
    (type_ : type_arg) (accessory_nexus_id : Z) (auth : SipHash_2_4)
    : result token :=
  let truncated_accessory_nexus_id :=
    format_0d 1 (Z.land accessory_nexus_id 0xFFFFFFFF mod 10) in
  ChannelOriginCommandToken_init
    type_ truncated_accessory_nexus_id (digits_from_siphash auth 6).

Definition _specific_accessory_builder
    (type_ : OriginCommandType.t)
    (accessory_nexus_id : Z)
    (controller_command_count : Z)
    (controller_sym_key : bytes) : result token :=
  assert (Nat.eqb (length controller_sym_key) 16) ;;
  let nexus_authority_id :=
    Z.shiftr (Z.land accessory_nexus_id 0xFFFF00000000) 32 in
  let nexus_device_id := Z.land accessory_nexus_id 0xFFFFFFFF in
  packed_target_inputs <-
    pack [ (32%nat, controller_command_count);
           (8%nat, OriginCommandType.value type_);
           (16%nat, nexus_authority_id);
           (32%nat, nexus_device_id) ] ;;
  assert (Nat.eqb (length packed_target_inputs) 11) ;;
  let auth := SipHash_2_4_new controller_sym_key packed_target_inputs in
  SpecificLinkedAccessoryToken_init
    (OfOriginCommandType type_) accessory_nexus_id auth.

Definition unlink_specific_accessory
    (accessory_nexus_id controller_command_count : Z)
    (controller_sym_key : bytes) : result token :=
  _specific_accessory_builder OriginCommandType.UNLINK_ACCESSORY
    accessory_nexus_id controller_command_count controller_sym_key.

Definition unlock_specific_accessory
    (accessory_nexus_id controller_command_count : Z)
    (controller_sym_key : bytes) : result token :=
  _specific_accessory_builder OriginCommandType.UNLOCK_ACCESSORY
    accessory_nexus_id controller_command_count controller_sym_key.

(** *** Link challenge *)

(** [LinkCommandToken.__init__] *)
Definition LinkCommandToken_init
    (type_ : type_arg) (body auth : str) : result token :=
  ChannelOriginCommandToken_init type_ body auth.

Definition challenge_mode_3
    (controller_command_count accessory_command_count : Z)
    (accessory_sym_key controller_sym_key : bytes) : result token :=
  let command_type := OriginCommandType.LINK_ACCESSORY_MODE_3 in
  assert (Nat.eqb (length accessory_sym_key) 16) ;;
  assert (Nat.eqb (length controller_sym_key) 16) ;;
  packed_target_inputs <- pack [ (32%nat, accessory_command_count) ] ;;
  assert (Nat.eqb (length packed_target_inputs) 4) ;;
  let accessory_auth :=
    SipHash_2_4_new accessory_sym_key packed_target_inputs in
  let accessory_auth_digits := digits_from_siphash accessory_auth 6 in
  challenge_digits_int <- int_of_str accessory_auth_digits ;;
  packed_auth_inputs <-
    pack [ (32%nat, controller_command_count);
           (8%nat, OriginCommandType.value command_type);
           (32%nat, challenge_digits_int) ] ;;
  assert (Nat.eqb (length packed_auth_inputs) 9) ;;
  let auth := SipHash_2_4_new controller_sym_key packed_auth_inputs in
  LinkCommandToken_init
    (OfOriginCommandType command_type)
    accessory_auth_digits
    (digits_from_siphash auth 6).

(** *** Dispatch *)

(** [ChannelOriginAction.build]: the action selects its constructor, which
    is called with the keyword arguments; Python raises [TypeError] when a
    parameter of the constructor is missing or an argument is passed that
    the constructor does not take. *)
Definition build (self : ChannelOriginAction.t) (kw : kwargs)
    : result token :=
  match self with
  | ChannelOriginAction.UNLINK_ALL_ACCESSORIES =>
      match kw with
      | Kwargs (Some ccc) None None None (Some csk) =>
          unlink_all_accessories ccc csk
      | _ => Raise TypeError
      end
  | ChannelOriginAction.UNLOCK_ALL_ACCESSORIES =>
      match kw with
      | Kwargs (Some ccc) None None None (Some csk) =>
          unlock_all_accessories ccc csk
      | _ => Raise TypeError
      end
  | ChannelOriginAction.UNLOCK_ACCESSORY =>
      match kw with
      | Kwargs (Some ccc) None (Some id) None (Some csk) =>
          unlock_specific_accessory id ccc csk
      | _ => Raise TypeError
      end
  | ChannelOriginAction.UNLINK_ACCESSORY =>
      match kw with
      | Kwargs (Some ccc) None (Some id) None (Some csk) =>
          unlink_specific_accessory id ccc csk
      | _ => Raise TypeError
      end
  | ChannelOriginAction.LINK_ACCESSORY_MODE_3 =>
      match kw with
      | Kwargs (Some ccc) (Some acc) None (Some ask) (Some csk) =>
          challenge_mode_3 ccc acc ask csk
      | _ => Raise TypeError
      end
  end.

End Tokens.

(** ** Reference layouts and the obfuscation contract *)

(** The canonical 9-byte MAC input
    [[uint32 count][uint8 type_code][uint32 value]], little-endian. *)
Definition packing9 (count type_code value : Z) : bytes :=
  le_bytes 4 count ++ le_bytes 1 type_code ++ le_bytes 4 value.

(** The canonical 11-byte MAC input
    [[uint32 count][uint8 type_code][uint16 authority][uint32 device]]. *)
Definition packing11 (count type_code authority device : Z) : bytes :=
  le_bytes 4 count ++ le_bytes 1 type_code ++
  le_bytes 2 authority ++ le_bytes 4 device.

(** The link challenge read as an integer: the six least-significant
    decimal digits of the low 32 bits of the accessory-keyed tag. *)
Definition challenge_value (mac : bytes -> bytes -> Z)
    (akey : bytes) (acount : Z) : Z :=
  (mac akey (le_bytes 4 acount) mod 2 ^ 32) mod 10 ^ 6.

(** What the module relies on from [full_obscure]: it keeps the length,
    leaves everything after the first [obscured_digit_count] characters as
    it is, and maps digits to digits. *)
Definition length_preserving (f : str -> nat -> str) : Prop :=
  forall s k, length (f s k) = length s.

Definition prefix_only (f : str -> nat -> str) : Prop :=
  forall s k, skipn k (f s k) = skipn k s.

Definition digits_to_digits (f : str -> nat -> str) : Prop :=
  forall s k,
    forallb is_digit s = true -> forallb is_digit (f s k) = true.

(** Modelled from the spec: [full_obscure] is defined in
    [nexus_keycode/protocols/utils.py], which is not among the sources at
    hand.  The specification fixes its contract only (length-preserving,
    confined to the leading [obscured_digit_count] characters, digits to
    digits); this transform meets that contract by rotating each leading
    digit, and serves to instantiate the contract. *)
Definition full_obscure_model (digits : str) (obscured_digit_count : nat)
    : str :=
  map (fun c => digit_char ((digit_val c + 7) mod 10))
      (firstn obscured_digit_count digits)
  ++ skipn obscured_digit_count digits.

(** Whether [kw] passes exactly the parameters of the constructor that
    [action] selects. *)
Definition is_some {A : Type} (o : option A) : bool :=
  match o with Some _ => true | None => false end.

Definition takes_kwargs (action : ChannelOriginAction.t) (kw : kwargs)
    : bool :=
  let ccc := is_some (kw_controller_command_count kw) in
  let acc := is_some (kw_accessory_command_count kw) in
  let id := is_some (kw_accessory_nexus_id kw) in
  let ask := is_some (kw_accessory_sym_key kw) in
  let csk := is_some (kw_controller_sym_key kw) in
  match action with
  | ChannelOriginAction.UNLINK_ALL_ACCESSORIES
  | ChannelOriginAction.UNLOCK_ALL_ACCESSORIES =>
      ccc && negb acc && negb id && negb ask && csk
  | ChannelOriginAction.UNLOCK_ACCESSORY
  | ChannelOriginAction.UNLINK_ACCESSORY =>
      ccc && negb acc && id && negb ask && csk
  | ChannelOriginAction.LINK_ACCESSORY_MODE_3 =>
      ccc && acc && negb id && ask && csk
  end.

(** The leading digits that identify an action on the wire: the type
    digit, followed for generic controller actions by the action code. *)
Definition action_prefix (action : ChannelOriginAction.t) : str :=
  match action with
  | ChannelOriginAction.UNLINK_ALL_ACCESSORIES => lit "000"
  | ChannelOriginAction.UNLOCK_ALL_ACCESSORIES => lit "001"
  | ChannelOriginAction.UNLOCK_ACCESSORY => lit "1"
  | ChannelOriginAction.UNLINK_ACCESSORY => lit "2"
  | ChannelOriginAction.LINK_ACCESSORY_MODE_3 => lit "9"
  end.

(** The number of digits of a serialised token of each action. *)
Definition action_length (action : ChannelOriginAction.t) : nat :=
  match action with
  | ChannelOriginAction.UNLINK_ALL_ACCESSORIES
  | ChannelOriginAction.UNLOCK_ALL_ACCESSORIES => 9
  | ChannelOriginAction.UNLOCK_ACCESSORY
  | ChannelOriginAction.UNLINK_ACCESSORY => 8
  | ChannelOriginAction.LINK_ACCESSORY_MODE_3 => 13
  end.

(** The all-zero 16-byte key. *)
Definition zero_key : bytes := repeat x00 16.

(** * Properties *)

(** ** The result monad *)

Lemma assert_true (A : Type) (b : bool) (k : unit -> result A) :
  b = true -> bind (assert_ b) k = k tt.
Proof. intros ->. reflexivity. Qed.

Lemma assert_false (A : Type) (b : bool) (k : unit -> result A) :
  b = false -> bind (assert_ b) k = Raise AssertionError.
Proof. intros ->. reflexivity. Qed.

(** ** SipHash-2-4 reference vectors

    Key [00 01 .. 0f]; the empty message and the 15-byte message
    [00 01 .. 0e], from the SipHash reference implementation. *)

Example siphash_vector_empty :
  SipHash.hash (map byte_of_Z [0;1;2;3;4;5;6;7;8;9;10;11;12;13;14;15]) []
  = 0x726fdb47dd0e0e31.
Proof. vm_compute. reflexivity. Qed.

Example siphash_vector_15 :
  SipHash.hash (map byte_of_Z [0;1;2;3;4;5;6;7;8;9;10;11;12;13;14;15])
               (map byte_of_Z [0;1;2;3;4;5;6;7;8;9;10;11;12;13;14])
  = 0xa129ca6149be45e5.
Proof. vm_compute. reflexivity. Qed.

(** ** Decimal digits *)

Ltac digit_cases d :=
  let H := fresh "Hcases" in
  assert (H : d = 0 \/ d = 1 \/ d = 2 \/ d = 3 \/ d = 4 \/
              d = 5 \/ d = 6 \/ d = 7 \/ d = 8 \/ d = 9) by lia;
  repeat (destruct H as [H | H]; [rewrite H | ]); try rewrite H.

Lemma digit_char_is_digit (d : Z) :
  0 <= d < 10 -> is_digit (digit_char d) = true.
Proof. intros Hd. digit_cases d; reflexivity. Qed.

Lemma digit_val_char (d : Z) :
  0 <= d < 10 -> digit_val (digit_char d) = d.
Proof. intros Hd. digit_cases d; reflexivity. Qed.

Lemma mod10_bound (v : Z) : 0 <= v mod 10 < 10.
Proof. apply Z.mod_pos_bound. lia. Qed.

Lemma ls_digits_length (n : nat) : forall v, length (ls_digits n v) = n.
Proof.
  induction n as [| n IH]; intros v; cbn [ls_digits].
  - reflexivity.
  - rewrite length_app, IH. cbn [length]. lia.
Qed.

Lemma ls_digits_all_digits (n : nat) :
  forall v, forallb is_digit (ls_digits n v) = true.
Proof.
  induction n as [| n IH]; intros v; cbn [ls_digits].
  - reflexivity.
  - rewrite forallb_app, IH. cbn [forallb andb].
    rewrite digit_char_is_digit by apply mod10_bound. reflexivity.
Qed.

Lemma ls_digits_zero (n : nat) : ls_digits n 0 = repeat "0"%char n.
Proof.
  induction n as [| n IH]; cbn [ls_digits].
  - reflexivity.
  - change (0 / 10) with 0. rewrite IH.
    change (digit_char (0 mod 10)) with "0"%char.
    now rewrite <- repeat_cons.
Qed.

(** Digits beyond the most significant one are zeros. *)
Lemma ls_digits_pad (m : nat) :
  forall (k : nat) (v : Z),
    0 <= v < 10 ^ Z.of_nat m ->
    ls_digits (k + m) v = repeat "0"%char k ++ ls_digits m v.
Proof.
  induction m as [| m IH]; intros k v Hv.
  - simpl in Hv. assert (v = 0) by lia. subst v.
    rewrite Nat.add_0_r, app_nil_r. apply ls_digits_zero.
  - rewrite Nat.add_succ_r. cbn [ls_digits].
    rewrite IH, app_assoc; [reflexivity |].
    rewrite Nat2Z.inj_succ, Z.pow_succ_r in Hv by lia.
    split; [apply Z.div_pos; lia |].
    apply Z.div_lt_upper_bound; lia.
Qed.

(** Dropping leading digits leaves the least-significant ones. *)
Lemma ls_digits_skipn (m : nat) :
  forall (n : nat) (v : Z),
    (n <= m)%nat -> skipn (m - n) (ls_digits m v) = ls_digits n v.
Proof.
  induction m as [| m IH]; intros n v Hn.
  - assert (n = O) by lia. subst n. reflexivity.
  - destruct n as [| n].
    + rewrite Nat.sub_0_r. change (ls_digits 0 v) with (@nil ascii).
      apply skipn_all2. rewrite ls_digits_length. lia.
    + replace (S m - S n)%nat with (m - n)%nat by lia.
      cbn [ls_digits]. rewrite skipn_app, IH by lia.
      rewrite ls_digits_length.
      replace (m - n - m)%nat with O by lia. reflexivity.
Qed.

Lemma dec_aux_ls_digits (fuel : nat) :
  forall (v : Z) (acc : str),
    0 <= v < 2 ^ Z.of_nat (S fuel) ->
    exists m : nat,
      (1 <= m)%nat /\ v < 10 ^ Z.of_nat m /\
      dec_aux (S fuel) v acc = ls_digits m v ++ acc.
Proof.
  induction fuel as [| fuel IH]; intros v acc Hv.
  - exists 1%nat. change (2 ^ Z.of_nat 1) with 2 in Hv.
    assert (Hq : v / 10 = 0) by (apply Z.div_small; lia).
    cbn [dec_aux ls_digits app]. rewrite Hq.
    split; [lia | split; [change (10 ^ Z.of_nat 1) with 10; lia | reflexivity]].
  - cbn [dec_aux]. destruct (Z.eqb_spec (v / 10) 0) as [Hq | Hq].
    + exists 1%nat. split; [lia | split; [| reflexivity]].
      change (10 ^ Z.of_nat 1) with 10.
      apply Z.div_small_iff in Hq; lia.
    + assert (Hq' : 0 <= v / 10 < 2 ^ Z.of_nat (S fuel)).
      { split; [apply Z.div_pos; lia |].
        apply Z.div_lt_upper_bound; [lia |].
        rewrite (Nat2Z.inj_succ (S fuel)), Z.pow_succ_r in Hv by lia. lia. }
      destruct (IH (v / 10) (digit_char (v mod 10) :: acc) Hq')
        as (m & Hm & Hlt & Heq).
      exists (S m). split; [lia | split].
      * rewrite Nat2Z.inj_succ, Z.pow_succ_r by lia.
        pose proof (Z.div_mod v 10 ltac:(lia)).
        pose proof (mod10_bound v). lia.
      * cbn [dec_aux] in Heq. rewrite Heq. cbn [ls_digits].
        rewrite <- app_assoc. reflexivity.
Qed.

(** The decimal representation of [v] consists of its [m] significant
    digits, for some [m >= 1]. *)
Lemma dec_nonneg_ls_digits (v : Z) :
  0 <= v ->
  exists m : nat,
    (1 <= m)%nat /\ v < 10 ^ Z.of_nat m /\ dec_nonneg v = ls_digits m v.
Proof.
  intros Hv. unfold dec_nonneg.
  destruct (dec_aux_ls_digits (Z.to_nat (Z.log2 v)) v []) as (m & H1 & H2 & H3).
  - split; [assumption |].
    rewrite Nat2Z.inj_succ, Z2Nat.id by apply Z.log2_nonneg.
    destruct (Z.eq_dec v 0) as [-> | Hnz]; [reflexivity |].
    apply Z.log2_spec. lia.
  - exists m. rewrite app_nil_r in H3. auto.
Qed.

(** Zero-padding to width [n] and keeping the last [n] characters gives
    the [n] least-significant digits. *)
Lemma slice_format_0d (n : nat) (v : Z) :
  (1 <= n)%nat -> 0 <= v ->
  slice_last n (format_0d n v) = ls_digits n v.
Proof.
  intros Hn Hv. unfold format_0d.
  destruct (Z.ltb_spec v 0) as [Hneg | _]; [lia |].
  destruct (dec_nonneg_ls_digits v Hv) as (m & Hm & Hlt & ->).
  unfold zfill, slice_last. rewrite ls_digits_length.
  destruct n as [| n]; [lia |].
  rewrite <- ls_digits_pad by lia.
  rewrite ls_digits_length.
  replace (S n - m + m - S n)%nat with ((S n - m + m) - S n)%nat by lia.
  apply ls_digits_skipn. lia.
Qed.

(** A value below ten formats to its single digit. *)
Lemma format_0d_1_digit (d : Z) :
  0 <= d < 10 -> format_0d 1 d = [digit_char d].
Proof. intros Hd. digit_cases d; reflexivity. Qed.

Lemma str_int_digit (d : Z) :
  0 <= d < 10 -> str_int d = [digit_char d].
Proof. intros Hd. digit_cases d; reflexivity. Qed.

Lemma fold_ls_digits (n : nat) :
  forall v,
    0 <= v ->
    fold_left (fun acc c => acc * 10 + digit_val c) (ls_digits n v) 0
    = v mod 10 ^ Z.of_nat n.
Proof.
  induction n as [| n IH]; intros v Hv; cbn [ls_digits].
  - change (10 ^ Z.of_nat 0) with 1. rewrite Z.mod_1_r. reflexivity.
  - rewrite fold_left_app, IH by (apply Z.div_pos; lia).
    cbn [fold_left]. rewrite digit_val_char by apply mod10_bound.
    rewrite Nat2Z.inj_succ, Z.pow_succ_r by lia.
    rewrite Z.rem_mul_r by lia. lia.
Qed.

(** Reading back [n >= 1] least-significant digits gives the value
    modulo [10^n]. *)
Lemma int_of_str_ls_digits (n : nat) (v : Z) :
  (1 <= n)%nat -> 0 <= v ->
  int_of_str (ls_digits n v) = Ok (v mod 10 ^ Z.of_nat n).
Proof.
  intros Hn Hv. unfold int_of_str.
  rewrite ls_digits_all_digits, fold_ls_digits by assumption.
  destruct (ls_digits n v) eqn:E; [| reflexivity].
  apply (f_equal (@length ascii)) in E.
  rewrite ls_digits_length in E. simpl in E. lia.
Qed.

(** ** Bytes and little-endian fields *)

Lemma Z_of_byte_of_Z (z : Z) : Z_of_byte (byte_of_Z z) = z mod 256.
Proof.
  pose proof (Z.mod_pos_bound z 256 ltac:(lia)) as Hb.
  unfold Z_of_byte, byte_of_Z.
  destruct (Byte.of_N (Z.to_N (z mod 256))) as [b |] eqn:E.
  - apply Byte.to_of_N in E. rewrite E. apply Z2N.id. lia.
  - apply Byte.of_N_None_iff in E. lia.
Qed.

Lemma le_bytes_length (n : nat) : forall v, length (le_bytes n v) = n.
Proof.
  induction n as [| n IH]; intros v; cbn [le_bytes length]; auto.
Qed.

(** [le_bytes n v] is the little-endian layout of [v] on [n] bytes. *)
Lemma le_decode_le_bytes (n : nat) :
  forall v, le_decode (le_bytes n v) = v mod 2 ^ (8 * Z.of_nat n).
Proof.
  induction n as [| n IH]; intros v; cbn [le_bytes le_decode].
  - change (2 ^ (8 * Z.of_nat 0)) with 1. now rewrite Z.mod_1_r.
  - rewrite Z_of_byte_of_Z, IH, Z.shiftr_div_pow2 by lia.
    replace (8 * Z.of_nat (S n)) with (8 + 8 * Z.of_nat n) by lia.
    rewrite Z.pow_add_r by lia.
    change (2 ^ 8) with 256.
    rewrite Z.rem_mul_r; [reflexivity | lia |].
    apply Z.pow_pos_nonneg; lia.
Qed.

Lemma uintle_ok (bits : nat) (v : Z) :
  Nat.modulo bits 8 = O ->
  0 <= v < 2 ^ Z.of_nat bits ->
  uintle bits v = Ok (le_bytes (Nat.div bits 8) v).
Proof.
  intros Hb Hv. unfold uintle. rewrite Hb. cbn [Nat.eqb negb].
  destruct (Z.ltb_spec v 0); [lia |].
  destruct (Z.leb_spec (2 ^ Z.of_nat bits) v); [lia | reflexivity].
Qed.

Lemma uintle_overflow (bits : nat) (v : Z) :
  2 ^ Z.of_nat bits <= v -> uintle bits v = Raise CreationError.
Proof.
  intros Hv. unfold uintle.
  destruct (negb _); [reflexivity |].
  destruct (Z.leb_spec (2 ^ Z.of_nat bits) v); [| lia].
  now rewrite orb_true_r.
Qed.

(** ** Masks and shifts on identifiers *)

Lemma land_mask32 (x : Z) : Z.land x 0xFFFFFFFF = x mod 2 ^ 32.
Proof. change 0xFFFFFFFF with (Z.ones 32). apply Z.land_ones. lia. Qed.

Lemma mask32_bound (x : Z) : 0 <= Z.land x 0xFFFFFFFF < 2 ^ 32.
Proof. rewrite land_mask32. apply Z.mod_pos_bound. lia. Qed.

Lemma authority_bits (x : Z) :
  Z.shiftr (Z.land x 0xFFFF00000000) 32 = (x / 2 ^ 32) mod 2 ^ 16.
Proof.
  rewrite Z.shiftr_land.
  change (Z.shiftr 0xFFFF00000000 32) with (Z.ones 16).
  rewrite Z.land_ones, Z.shiftr_div_pow2 by lia. reflexivity.
Qed.

Lemma authority_bound (x : Z) :
  0 <= Z.shiftr (Z.land x 0xFFFF00000000) 32 < 2 ^ 16.
Proof. rewrite authority_bits. apply Z.mod_pos_bound. lia. Qed.

Lemma device_bits_high (x k : Z) :
  Z.land (x + k * 2 ^ 48) 0xFFFFFFFF = Z.land x 0xFFFFFFFF.
Proof.
  rewrite !land_mask32.
  replace (x + k * 2 ^ 48) with (x + (k * 2 ^ 16) * 2 ^ 32) by lia.
  apply Z.mod_add. lia.
Qed.

Lemma authority_bits_high (x k : Z) :
  Z.shiftr (Z.land (x + k * 2 ^ 48) 0xFFFF00000000) 32
  = Z.shiftr (Z.land x 0xFFFF00000000) 32.
Proof.
  rewrite !authority_bits.
  replace (x + k * 2 ^ 48) with (x + (k * 2 ^ 16) * 2 ^ 32) by lia.
  rewrite Z.div_add by lia.
  apply Z.mod_add. lia.
Qed.

(** ** What the builders compute on valid inputs *)

Section BuilderFacts.

Variable mac : bytes -> bytes -> Z.

Lemma digits_from_siphash_ls (f : SipHash_2_4) (n : nat) :
  (1 <= n)%nat ->
  digits_from_siphash mac f n = ls_digits n (hash mac f mod 2 ^ 32).
Proof.
  intros Hn. unfold digits_from_siphash.
  rewrite slice_format_0d by (try assumption; apply mask32_bound).
  now rewrite land_mask32.
Qed.

Lemma key_check_ok (key : bytes) :
  length key = 16%nat -> Nat.eqb (length key) 16 = true.
Proof. intros ->. reflexivity. Qed.

Lemma key_check_fail (key : bytes) :
  length key <> 16%nat -> Nat.eqb (length key) 16 = false.
Proof. intros H. now apply Nat.eqb_neq. Qed.

Lemma packing9_length (c t v : Z) : length (packing9 c t v) = 9%nat.
Proof. unfold packing9. now rewrite !length_app, !le_bytes_length. Qed.

Lemma packing11_length (c t a d : Z) : length (packing11 c t a d) = 11%nat.
Proof. unfold packing11. now rewrite !length_app, !le_bytes_length. Qed.

Lemma pack4_ok (c : Z) :
  0 <= c < 2 ^ 32 -> pack [ (32%nat, c) ] = Ok (le_bytes 4 c).
Proof.
  intros Hc. cbn [pack]. rewrite (uintle_ok 32 c eq_refl Hc).
  cbn [bind]. rewrite app_nil_r. reflexivity.
Qed.

Lemma pack9_ok (c t v : Z) :
  0 <= c < 2 ^ 32 -> 0 <= t < 2 ^ 8 -> 0 <= v < 2 ^ 32 ->
  pack [ (32%nat, c); (8%nat, t); (32%nat, v) ] = Ok (packing9 c t v).
Proof.
  intros Hc Ht Hv. cbn [pack].
  rewrite (uintle_ok 32 c eq_refl Hc), (uintle_ok 8 t eq_refl Ht),
          (uintle_ok 32 v eq_refl Hv).
  cbn [bind]. rewrite app_nil_r. reflexivity.
Qed.

Lemma pack11_ok (c t a d : Z) :
  0 <= c < 2 ^ 32 -> 0 <= t < 2 ^ 8 -> 0 <= a < 2 ^ 16 -> 0 <= d < 2 ^ 32 ->
  pack [ (32%nat, c); (8%nat, t); (16%nat, a); (32%nat, d) ]
  = Ok (packing11 c t a d).
Proof.
  intros Hc Ht Ha Hd. cbn [pack].
  rewrite (uintle_ok 32 c eq_refl Hc), (uintle_ok 8 t eq_refl Ht),
          (uintle_ok 16 a eq_refl Ha), (uintle_ok 32 d eq_refl Hd).
  cbn [bind]. rewrite app_nil_r. reflexivity.
Qed.

Lemma pack_first_overflow (bits : nat) (v : Z) (rest : list (nat * Z)) :
  2 ^ Z.of_nat bits <= v ->
  pack ((bits, v) :: rest) = Raise CreationError.
Proof.
  intros Hv. cbn [pack]. now rewrite uintle_overflow.
Qed.

Lemma type_value_byte (x : OriginCommandType.t) :
  0 <= OriginCommandType.value x < 2 ^ 8.
Proof. destruct x; cbn; lia. Qed.

Lemma type_value_digit (x : OriginCommandType.t) :
  0 <= OriginCommandType.value x < 10.
Proof. destruct x; cbn; lia. Qed.

Lemma action_value_range (x : GenericControllerActionType.t) :
  0 <= GenericControllerActionType.value x < 2 ^ 32.
Proof. destruct x; cbn; lia. Qed.

Lemma generic_builder_ok (type_ : GenericControllerActionType.t)
    (count : Z) (key : bytes) :
  length key = 16%nat -> 0 <= count < 2 ^ 32 ->
  _generic_controller_action_builder mac type_ count key
  = Ok (Token 0
          (format_0d 2 (GenericControllerActionType.value type_))
          (ls_digits 6
             (mac key (packing9 count 0
                         (GenericControllerActionType.value type_))
              mod 2 ^ 32))).
Proof.
  intros Hk Hc. unfold _generic_controller_action_builder.
  rewrite assert_true by now apply key_check_ok.
  change (OriginCommandType.value
            GenericControllerActionToken_origin_command_type) with 0.
  rewrite pack9_ok by (try assumption; try lia; apply action_value_range).
  cbn [bind]. rewrite assert_true by now rewrite packing9_length.
  unfold GenericControllerActionToken_init, ChannelOriginCommandToken_init.
  rewrite digits_from_siphash_ls by lia. reflexivity.
Qed.

Lemma specific_builder_ok (type_ : OriginCommandType.t)
    (id count : Z) (key : bytes) :
  length key = 16%nat -> 0 <= count < 2 ^ 32 ->
  _specific_accessory_builder mac type_ id count key
  = Ok (Token (OriginCommandType.value type_)
          [digit_char (Z.land id 0xFFFFFFFF mod 10)]
          (ls_digits 6
             (mac key (packing11 count (OriginCommandType.value type_)
                         (Z.shiftr (Z.land id 0xFFFF00000000) 32)
                         (Z.land id 0xFFFFFFFF))
              mod 2 ^ 32))).
Proof.
  intros Hk Hc. unfold _specific_accessory_builder.
  rewrite assert_true by now apply key_check_ok.
  rewrite pack11_ok
    by (try assumption; first [apply type_value_byte | apply authority_bound
                              | apply mask32_bound]).
  cbn [bind]. rewrite assert_true by now rewrite packing11_length.
  unfold SpecificLinkedAccessoryToken_init, ChannelOriginCommandToken_init.
  rewrite digits_from_siphash_ls by lia.
  rewrite format_0d_1_digit by apply mod10_bound. reflexivity.
Qed.

Lemma challenge_value_range (akey : bytes) (acount : Z) :
  0 <= challenge_value mac akey acount < 2 ^ 32.
Proof.
  unfold challenge_value.
  pose proof (Z.mod_pos_bound (mac akey (le_bytes 4 acount) mod 2 ^ 32)
                (10 ^ 6) ltac:(lia)).
  lia.
Qed.

Lemma link_builder_ok (ccount acount : Z) (akey ckey : bytes) :
  length akey = 16%nat -> length ckey = 16%nat ->
  0 <= ccount < 2 ^ 32 -> 0 <= acount < 2 ^ 32 ->
  challenge_mode_3 mac ccount acount akey ckey
  = Ok (Token 9
          (ls_digits 6 (mac akey (le_bytes 4 acount) mod 2 ^ 32))
          (ls_digits 6
             (mac ckey (packing9 ccount 9 (challenge_value mac akey acount))
              mod 2 ^ 32))).
Proof.
  intros Hka Hkc Hc Ha. unfold challenge_mode_3.
  rewrite assert_true by now apply key_check_ok.
  rewrite assert_true by now apply key_check_ok.
  rewrite pack4_ok by assumption.
  cbn [bind]. rewrite assert_true by now rewrite le_bytes_length.
  rewrite !digits_from_siphash_ls by lia.
  unfold hash at 1. cbn [sip_key sip_msg].
  rewrite int_of_str_ls_digits
    by (try lia; apply Z.mod_pos_bound; lia).
  cbn [bind].
  change (OriginCommandType.value OriginCommandType.LINK_ACCESSORY_MODE_3)
    with 9.
  change (10 ^ Z.of_nat 6) with (10 ^ 6).
  fold (challenge_value mac akey acount).
  rewrite pack9_ok by (try assumption; try lia; apply challenge_value_range).
  cbn [bind]. rewrite assert_true by now rewrite packing9_length.
  rewrite digits_from_siphash_ls by lia.
  unfold LinkCommandToken_init, ChannelOriginCommandToken_init, hash.
  reflexivity.
Qed.

End BuilderFacts.

(** ** Field layout of the canonical packings *)

Lemma firstn_le_bytes_app (n : nat) (v : Z) (rest : bytes) :
  firstn n (le_bytes n v ++ rest) = le_bytes n v.
Proof.
  rewrite firstn_app, le_bytes_length, Nat.sub_diag.
  cbn [firstn]. rewrite app_nil_r.
  apply firstn_all2. now rewrite le_bytes_length.
Qed.

Lemma skipn_le_bytes_app (n : nat) (v : Z) (rest : bytes) :
  skipn n (le_bytes n v ++ rest) = rest.
Proof.
  rewrite skipn_app, le_bytes_length, Nat.sub_diag.
  cbn [skipn]. rewrite skipn_all2 by now rewrite le_bytes_length.
  reflexivity.
Qed.

(** The three fields of a 9-byte packing read back, little-endian, as the
    values that were packed. *)
Lemma packing9_fields (c t v : Z) :
  0 <= c < 2 ^ 32 -> 0 <= t < 2 ^ 8 -> 0 <= v < 2 ^ 32 ->
  let p := packing9 c t v in
  length p = 9%nat /\
  le_decode (firstn 4 p) = c /\
  le_decode (firstn 1 (skipn 4 p)) = t /\
  le_decode (skipn 5 p) = v.
Proof.
  intros Hc Ht Hv p. subst p. unfold packing9.
  split; [now rewrite !length_app, !le_bytes_length |].
  rewrite firstn_le_bytes_app.
  change 5%nat with (1 + 4)%nat. rewrite <- skipn_skipn.
  rewrite !skipn_le_bytes_app, firstn_le_bytes_app.
  rewrite !le_decode_le_bytes.
  change (2 ^ (8 * Z.of_nat 4)) with (2 ^ 32).
  change (2 ^ (8 * Z.of_nat 1)) with (2 ^ 8).
  rewrite !Z.mod_small by assumption. auto.
Qed.

(** ** Serialisation *)

Section Serialisation.

Variable full_obscure : str -> nat -> str.

Lemma to_digits_plain (tok : token) :
  to_digits full_obscure tok false
  = str_int (type_code tok) ++ body tok ++ auth tok.
Proof. reflexivity. Qed.

Lemma to_digits_obscured (tok : token) :
  to_digits full_obscure tok true
  = full_obscure (to_digits full_obscure tok false)
      (length (str_int (type_code tok)) + length (body tok)).
Proof.
  unfold to_digits. f_equal. rewrite !length_app. lia.
Qed.

Lemma plain_all_digits (tok : token) :
  0 <= type_code tok < 10 ->
  forallb is_digit (body tok) = true ->
  forallb is_digit (auth tok) = true ->
  forallb is_digit (to_digits full_obscure tok false) = true.
Proof.
  intros Ht Hb Ha. rewrite to_digits_plain, str_int_digit by assumption.
  rewrite !forallb_app, Hb, Ha. cbn [forallb].
  now rewrite digit_char_is_digit.
Qed.

Lemma plain_length (tok : token) :
  0 <= type_code tok < 10 ->
  length (to_digits full_obscure tok false)
  = (1 + length (body tok) + length (auth tok))%nat.
Proof.
  intros Ht. rewrite to_digits_plain, str_int_digit by assumption.
  rewrite !length_app. cbn [length]. lia.
Qed.

End Serialisation.

(** ** The stand-in obfuscation meets the contract *)

Lemma full_obscure_model_length : length_preserving full_obscure_model.
Proof.
  intros s k. unfold full_obscure_model.
  rewrite length_app, length_map, <- length_app, firstn_skipn. reflexivity.
Qed.

Lemma full_obscure_model_prefix : prefix_only full_obscure_model.
Proof.
  intros s k. unfold full_obscure_model.
  rewrite skipn_app, length_map, length_firstn.
  rewrite skipn_all2 by (rewrite length_map, length_firstn; lia).
  cbn [app]. rewrite skipn_skipn.
  destruct (Nat.le_gt_cases k (length s)) as [Hle | Hgt].
  - f_equal. lia.
  - rewrite !skipn_all2 by lia. reflexivity.
Qed.

Lemma full_obscure_model_digits : digits_to_digits full_obscure_model.
Proof.
  intros s k Hs. unfold full_obscure_model.
  rewrite <- (firstn_skipn k s), forallb_app in Hs.
  apply andb_prop in Hs. destruct Hs as [_ Hs].
  rewrite forallb_app, Hs, andb_true_r.
  apply forallb_forall. intros c Hc.
  apply in_map_iff in Hc. destruct Hc as (c0 & <- & _).
  apply digit_char_is_digit, mod10_bound.
Qed.

(** * The documented properties *)

(** C3.  For a 64-bit tag and [n >= 1], [digits_from_siphash] returns the
    last [n] characters of the decimal representation of the tag's low 32
    bits zero-padded to width [n]; these are the [n] least-significant
    decimal digits of the low 32 bits, and the result is a string of
    exactly [n] decimal-digit characters. *)
Theorem digits_from_siphash_spec
    (mac : bytes -> bytes -> Z) (f : SipHash_2_4) (tag : Z) (n : nat) :
  hash mac f = tag ->
  0 <= tag < 2 ^ 64 ->
  (1 <= n)%nat ->
  digits_from_siphash mac f n
    = slice_last n (zfill n (dec_nonneg (tag mod 2 ^ 32))) /\
  digits_from_siphash mac f n = ls_digits n (tag mod 2 ^ 32) /\
  length (digits_from_siphash mac f n) = n /\
  forallb is_digit (digits_from_siphash mac f n) = true.
Proof.
  intros Htag _ Hn. subst tag.
  rewrite digits_from_siphash_ls by assumption.
  repeat split.
  - pose proof (Z.mod_pos_bound (hash mac f) (2 ^ 32) ltac:(lia)) as Hb.
    rewrite <- (slice_format_0d n) by lia.
    unfold format_0d.
    destruct (Z.ltb_spec (hash mac f mod 2 ^ 32) 0); [lia | reflexivity].
  - apply ls_digits_length.
  - apply ls_digits_all_digits.
Qed.

Lemma digits_from_siphash_spec_witness :
  let f := SipHash_2_4_new zero_key [] in
  let tag := SipHash.hash zero_key [] in
  digits_from_siphash SipHash.hash f 6 = ls_digits 6 (tag mod 2 ^ 32) /\
  length (digits_from_siphash SipHash.hash f 6) = 6%nat.
Proof.
  intros f tag.
  assert (Hr : 0 <= tag < 2 ^ 64).
  { split; [apply Z.leb_le | apply Z.ltb_lt]; vm_compute; reflexivity. }
  destruct (digits_from_siphash_spec SipHash.hash f tag 6 eq_refl Hr
              ltac:(lia)) as (_ & H2 & H3 & _).
  split; assumption.
Defined.

(** C1.  Given a 16-byte controller key and an unsigned 32-bit command
    count, the generic controller action builder returns, for either
    generic action, a token whose type digit is 0, whose body is the
    two-digit zero-padded action code (00 for unlink-all, 01 for
    unlock-all), and whose auth is the 6 least-significant decimal digits
    of the low 32 bits of the MAC, under the controller key, of the 9-byte
    little-endian packing of (count, 0, action code). *)
Theorem generic_builder_spec
    (mac : bytes -> bytes -> Z) (type_ : GenericControllerActionType.t)
    (controller_command_count : Z) (controller_sym_key : bytes) :
  length controller_sym_key = 16%nat ->
  0 <= controller_command_count < 2 ^ 32 ->
  let action_code := GenericControllerActionType.value type_ in
  let packing := packing9 controller_command_count 0 action_code in
  exists tok,
    _generic_controller_action_builder
      mac type_ controller_command_count controller_sym_key = Ok tok /\
    str_int (type_code tok) = lit "0" /\
    body tok = ls_digits 2 action_code /\
    body tok = match type_ with
               | GenericControllerActionType.UNLINK_ALL_ACCESSORIES => lit "00"
               | GenericControllerActionType.UNLOCK_ALL_ACCESSORIES => lit "01"
               end /\
    auth tok = ls_digits 6 (mac controller_sym_key packing mod 2 ^ 32) /\
    (length packing = 9%nat /\
     le_decode (firstn 4 packing) = controller_command_count /\
     le_decode (firstn 1 (skipn 4 packing)) = 0 /\
     le_decode (skipn 5 packing) = action_code).
Proof.
  intros Hk Hc action_code packing.
  eexists. split; [apply generic_builder_ok; assumption |].
  cbn [type_code body auth].
  repeat split; try (destruct type_; reflexivity);
    apply packing9_fields; try assumption; try lia;
    apply action_value_range.
Qed.

Lemma generic_builder_spec_witness :
  exists tok,
    _generic_controller_action_builder SipHash.hash
      GenericControllerActionType.UNLOCK_ALL_ACCESSORIES 7 zero_key = Ok tok /\
    body tok = lit "01" /\
    auth tok = ls_digits 6 (SipHash.hash zero_key (packing9 7 0 1) mod 2 ^ 32).
Proof.
  destruct (generic_builder_spec SipHash.hash
              GenericControllerActionType.UNLOCK_ALL_ACCESSORIES 7 zero_key
              eq_refl ltac:(lia)) as (tok & H1 & _ & _ & H3 & H4 & _).
  exists tok. repeat split; assumption.
Defined.

(** C2.  Given 16-byte accessory and controller keys and unsigned 32-bit
    counters, the link builder's token has type digit 9; its body is the 6
    least-significant decimal digits of the low 32 bits of the MAC, under
    the accessory key, of the 4-byte little-endian accessory counter; its
    auth is the 6 least-significant decimal digits of the low 32 bits of
    the MAC, under the controller key, of the 9-byte little-endian packing
    of (controller counter, 9, body digits read as an integer). *)
Theorem link_builder_spec
    (mac : bytes -> bytes -> Z)
    (controller_command_count accessory_command_count : Z)
    (accessory_sym_key controller_sym_key : bytes) :
  length accessory_sym_key = 16%nat ->
  length controller_sym_key = 16%nat ->
  0 <= controller_command_count < 2 ^ 32 ->
  0 <= accessory_command_count < 2 ^ 32 ->
  let accessory_packing := le_bytes 4 accessory_command_count in
  let challenge_digits :=
    ls_digits 6 (mac accessory_sym_key accessory_packing mod 2 ^ 32) in
  exists tok challenge_int,
    challenge_mode_3 mac controller_command_count accessory_command_count
      accessory_sym_key controller_sym_key = Ok tok /\
    str_int (type_code tok) = lit "9" /\
    body tok = challenge_digits /\
    int_of_str challenge_digits = Ok challenge_int /\
    auth tok
      = ls_digits 6
          (mac controller_sym_key
             (packing9 controller_command_count 9 challenge_int)
           mod 2 ^ 32) /\
    (length accessory_packing = 4%nat /\
     le_decode accessory_packing = accessory_command_count) /\
    (let packing := packing9 controller_command_count 9 challenge_int in
     length packing = 9%nat /\
     le_decode (firstn 4 packing) = controller_command_count /\
     le_decode (firstn 1 (skipn 4 packing)) = 9 /\
     le_decode (skipn 5 packing) = challenge_int).
Proof.
  intros Hka Hkc Hc Ha accessory_packing challenge_digits.
  exists (Token 9 challenge_digits
            (ls_digits 6
               (mac controller_sym_key
                  (packing9 controller_command_count 9
                     (challenge_value mac accessory_sym_key
                        accessory_command_count))
                mod 2 ^ 32))),
         (challenge_value mac accessory_sym_key accessory_command_count).
  split; [apply link_builder_ok; assumption |].
  cbn [type_code body auth].
  split; [reflexivity |]. split; [reflexivity |].
  split.
  { unfold challenge_digits, challenge_value.
    apply int_of_str_ls_digits; [lia |].
    apply Z.mod_pos_bound. lia. }
  split; [reflexivity |].
  split.
  { unfold accessory_packing. rewrite le_bytes_length, le_decode_le_bytes.
    change (2 ^ (8 * Z.of_nat 4)) with (2 ^ 32).
    rewrite Z.mod_small by assumption. auto. }
  apply packing9_fields; try assumption; try lia.
  apply challenge_value_range.
Qed.

Lemma link_builder_spec_witness :
  exists tok,
    challenge_mode_3 SipHash.hash 1 2 zero_key zero_key = Ok tok /\
    body tok = ls_digits 6 (SipHash.hash zero_key (le_bytes 4 2) mod 2 ^ 32).
Proof.
  destruct (link_builder_spec SipHash.hash 1 2 zero_key zero_key
              eq_refl eq_refl ltac:(lia) ltac:(lia))
    as (tok & ci & H1 & _ & H3 & _).
  exists tok. split; assumption.
Defined.

(** ** Rejections *)

Lemma uintle_out_of_range (bits : nat) (v : Z) :
  v < 0 \/ 2 ^ Z.of_nat bits <= v -> uintle bits v = Raise CreationError.
Proof.
  intros [Hneg | Hbig]; [| now apply uintle_overflow].
  unfold uintle. destruct (negb _); [reflexivity |].
  destruct (Z.ltb_spec v 0); [reflexivity | lia].
Qed.

Section Rejections.

Variable mac : bytes -> bytes -> Z.

Lemma generic_builder_bad_key (type_ : GenericControllerActionType.t)
    (count : Z) (key : bytes) :
  length key <> 16%nat ->
  _generic_controller_action_builder mac type_ count key
  = Raise AssertionError.
Proof.
  intros Hk. unfold _generic_controller_action_builder.
  now rewrite assert_false by now apply key_check_fail.
Qed.

Lemma specific_builder_bad_key (type_ : OriginCommandType.t)
    (id count : Z) (key : bytes) :
  length key <> 16%nat ->
  _specific_accessory_builder mac type_ id count key = Raise AssertionError.
Proof.
  intros Hk. unfold _specific_accessory_builder.
  now rewrite assert_false by now apply key_check_fail.
Qed.

Lemma link_builder_bad_key (ccount acount : Z) (akey ckey : bytes) :
  length akey <> 16%nat \/ length ckey <> 16%nat ->
  challenge_mode_3 mac ccount acount akey ckey = Raise AssertionError.
Proof.
  intros Hk. unfold challenge_mode_3.
  destruct (Nat.eq_dec (length akey) 16) as [Ha | Ha].
  - rewrite assert_true by now apply key_check_ok.
    destruct Hk as [Hk | Hk]; [contradiction |].
    now rewrite assert_false by now apply key_check_fail.
  - now rewrite assert_false by now apply key_check_fail.
Qed.

Lemma generic_builder_overflow (type_ : GenericControllerActionType.t)
    (count : Z) (key : bytes) :
  length key = 16%nat -> 2 ^ 32 <= count ->
  _generic_controller_action_builder mac type_ count key
  = Raise CreationError.
Proof.
  intros Hk Hc. unfold _generic_controller_action_builder.
  rewrite assert_true by now apply key_check_ok.
  now rewrite pack_first_overflow by exact Hc.
Qed.

Lemma specific_builder_overflow (type_ : OriginCommandType.t)
    (id count : Z) (key : bytes) :
  length key = 16%nat -> 2 ^ 32 <= count ->
  _specific_accessory_builder mac type_ id count key = Raise CreationError.
Proof.
  intros Hk Hc. unfold _specific_accessory_builder.
  rewrite assert_true by now apply key_check_ok.
  now rewrite pack_first_overflow by exact Hc.
Qed.

Lemma link_builder_overflow (ccount acount : Z) (akey ckey : bytes) :
  length akey = 16%nat -> length ckey = 16%nat ->
  2 ^ 32 <= ccount \/ 2 ^ 32 <= acount ->
  challenge_mode_3 mac ccount acount akey ckey = Raise CreationError.
Proof.
  intros Hka Hkc Hover. unfold challenge_mode_3.
  rewrite assert_true by now apply key_check_ok.
  rewrite assert_true by now apply key_check_ok.
  assert (Hcases : (acount < 0 \/ 2 ^ Z.of_nat 32 <= acount)
                   \/ 0 <= acount < 2 ^ 32)
    by (change (2 ^ Z.of_nat 32) with (2 ^ 32); lia).
  destruct Hcases as [Hbad | Hgood].
  - replace (pack [(32%nat, acount)]) with (@Raise bytes CreationError)
      by (cbn [pack]; now rewrite uintle_out_of_range).
    reflexivity.
  - destruct Hover as [Hc | Ha]; [| lia].
    rewrite pack4_ok by assumption.
    cbn [bind]. rewrite assert_true by now rewrite le_bytes_length.
    rewrite digits_from_siphash_ls by lia.
    rewrite int_of_str_ls_digits by (try lia; apply Z.mod_pos_bound; lia).
    cbn [bind]. now rewrite pack_first_overflow by exact Hc.
Qed.

(** Bits 48 and above of the identifier reach neither the body nor the
    MAC input. *)
Lemma specific_builder_high_bits (type_ : OriginCommandType.t)
    (id k count : Z) (key : bytes) :
  _specific_accessory_builder mac type_ (id + k * 2 ^ 48) count key
  = _specific_accessory_builder mac type_ id count key.
Proof.
  unfold _specific_accessory_builder, SpecificLinkedAccessoryToken_init.
  now rewrite !device_bits_high, !authority_bits_high.
Qed.

End Rejections.

(** C6.  Every builder, called with a symmetric key that is not exactly 16
    bytes long, fails on the key-length assertion: whatever the counters
    and identifier are (even ones the packing would refuse) and whatever
    the keyed hash is, the outcome is the assertion failure, so the check
    precedes packing and hashing and no token is produced. *)
Theorem invalid_key_length_rejected (mac : bytes -> bytes -> Z) :
  (forall type_ count key,
      length key <> 16%nat ->
      _generic_controller_action_builder mac type_ count key
      = Raise AssertionError) /\
  (forall type_ id count key,
      length key <> 16%nat ->
      _specific_accessory_builder mac type_ id count key
      = Raise AssertionError) /\
  (forall ccount acount akey ckey,
      length akey <> 16%nat \/ length ckey <> 16%nat ->
      challenge_mode_3 mac ccount acount akey ckey = Raise AssertionError).
Proof.
  repeat split; intros.
  - now apply generic_builder_bad_key.
  - now apply specific_builder_bad_key.
  - now apply link_builder_bad_key.
Qed.

Lemma invalid_key_length_rejected_witness :
  unlink_all_accessories SipHash.hash (2 ^ 32) (repeat x00 15)
    = Raise AssertionError /\
  unlock_specific_accessory SipHash.hash 5 1 (repeat x00 17)
    = Raise AssertionError /\
  challenge_mode_3 SipHash.hash 1 (-1) zero_key (repeat x00 15)
    = Raise AssertionError.
Proof.
  destruct (invalid_key_length_rejected SipHash.hash) as (Hg & Hs & Hl).
  split; [| split].
  - apply Hg. cbn. lia.
  - apply Hs. cbn. lia.
  - apply Hl. right. cbn. lia.
Defined.

(** C10.  For every identifier and every non-negative [k], the
    specific-accessory builder returns for [id + k * 2^48] exactly what it
    returns for [id]; with a 16-byte key and a 32-bit counter that is a
    token, not an error: the bits at and above bit 48 are ignored in the
    body and in the MAC input. *)
Theorem specific_builder_ignores_bits_above_48
    (mac : bytes -> bytes -> Z) (type_ : OriginCommandType.t)
    (id k count : Z) (key : bytes) :
  0 <= k ->
  length key = 16%nat ->
  0 <= count < 2 ^ 32 ->
  exists tok,
    _specific_accessory_builder mac type_ id count key = Ok tok /\
    _specific_accessory_builder mac type_ (id + k * 2 ^ 48) count key
    = Ok tok.
Proof.
  intros _ Hk Hc. eexists.
  rewrite specific_builder_high_bits.
  split; apply specific_builder_ok; assumption.
Qed.

Lemma specific_builder_ignores_bits_above_48_witness :
  exists tok,
    unlink_specific_accessory SipHash.hash 123456 1 zero_key = Ok tok /\
    unlink_specific_accessory SipHash.hash (123456 + 3 * 2 ^ 48) 1 zero_key
    = Ok tok.
Proof.
  exact (specific_builder_ignores_bits_above_48 SipHash.hash
           OriginCommandType.UNLINK_ACCESSORY 123456 3 1 zero_key
           ltac:(lia) eq_refl ltac:(lia)).
Defined.

(** C4, as the code has it.  A counter of 2^32 or more makes every builder
    fail in [bitstring.pack] (given 16-byte keys), and no token is
    produced.  An accessory identifier of 2^48 or more is not refused: the
    specific-accessory builder returns what it returns for the identifier
    reduced modulo 2^48. *)
Theorem counter_overflow_rejected (mac : bytes -> bytes -> Z) :
  (forall type_ count key,
      length key = 16%nat -> 2 ^ 32 <= count ->
      _generic_controller_action_builder mac type_ count key
      = Raise CreationError) /\
  (forall type_ id count key,
      length key = 16%nat -> 2 ^ 32 <= count ->
      _specific_accessory_builder mac type_ id count key
      = Raise CreationError) /\
  (forall ccount acount akey ckey,
      length akey = 16%nat -> length ckey = 16%nat ->
      2 ^ 32 <= ccount \/ 2 ^ 32 <= acount ->
      challenge_mode_3 mac ccount acount akey ckey = Raise CreationError) /\
  (forall type_ id count key,
      2 ^ 48 <= id ->
      _specific_accessory_builder mac type_ id count key
      = _specific_accessory_builder mac type_ (id mod 2 ^ 48) count key).
Proof.
  split; [| split; [| split]]; intros.
  - now apply generic_builder_overflow.
  - now apply specific_builder_overflow.
  - now apply link_builder_overflow.
  - rewrite (Z.div_mod id (2 ^ 48)) at 1 by lia.
    rewrite Z.add_comm, (Z.mul_comm (2 ^ 48)).
    apply specific_builder_high_bits.
Qed.

Lemma counter_overflow_rejected_witness :
  unlink_all_accessories SipHash.hash (2 ^ 32) zero_key
    = Raise CreationError /\
  unlink_specific_accessory SipHash.hash 5 (2 ^ 32 + 1) zero_key
    = Raise CreationError /\
  challenge_mode_3 SipHash.hash 1 (2 ^ 32) zero_key zero_key
    = Raise CreationError /\
  unlink_specific_accessory SipHash.hash (2 ^ 48 + 5) 1 zero_key
    = unlink_specific_accessory SipHash.hash ((2 ^ 48 + 5) mod 2 ^ 48) 1
        zero_key.
Proof.
  destruct (counter_overflow_rejected SipHash.hash) as (Hg & Hs & Hl & Hi).
  split; [| split; [| split]].
  - apply Hg; [reflexivity | lia].
  - apply Hs; [reflexivity | lia].
  - apply Hl; [reflexivity | reflexivity | right; lia].
  - apply Hi. lia.
Defined.

(** C4 as stated fails: an identifier of 2^48 is accepted, and yields the
    token of identifier 0. *)
Lemma identifier_overflow_accepted :
  2 ^ 48 <= 2 ^ 48 /\
  unlink_specific_accessory SipHash.hash (2 ^ 48) 1 zero_key
  = Ok (Token 2 (lit "0") (lit "374651")) /\
  unlink_specific_accessory SipHash.hash 0 1 zero_key
  = Ok (Token 2 (lit "0") (lit "374651")).
Proof.
  split; [lia |]. split; vm_compute; reflexivity.
Qed.

(** C8, as the code has it.  Two distinct identifiers of at most 48 bits
    whose 32-bit device parts (the identifiers modulo 2^32) agree modulo
    10 get the same single body digit from the specific-accessory builder
    called with the same type, counter and key. *)
Theorem truncation_collision
    (mac : bytes -> bytes -> Z) (type_ : OriginCommandType.t)
    (a b count : Z) (key : bytes) :
  length key = 16%nat ->
  0 <= count < 2 ^ 32 ->
  a <> b ->
  0 <= a <= 2 ^ 48 - 1 ->
  0 <= b <= 2 ^ 48 - 1 ->
  (a mod 2 ^ 32) mod 10 = (b mod 2 ^ 32) mod 10 ->
  exists ta tb,
    _specific_accessory_builder mac type_ a count key = Ok ta /\
    _specific_accessory_builder mac type_ b count key = Ok tb /\
    body ta = body tb /\
    body ta = [digit_char ((a mod 2 ^ 32) mod 10)].
Proof.
  intros Hk Hc _ _ _ Hab.
  do 2 eexists.
  split; [apply specific_builder_ok; assumption |].
  split; [apply specific_builder_ok; assumption |].
  cbn [body]. rewrite !land_mask32, Hab. split; reflexivity.
Qed.

Lemma truncation_collision_witness :
  exists ta tb,
    unlink_specific_accessory SipHash.hash 17 1 zero_key = Ok ta /\
    unlink_specific_accessory SipHash.hash (2 ^ 32 + 27) 1 zero_key = Ok tb /\
    body ta = body tb.
Proof.
  destruct (truncation_collision SipHash.hash
              OriginCommandType.UNLINK_ACCESSORY 17 (2 ^ 32 + 27) 1 zero_key
              eq_refl ltac:(lia) ltac:(lia) ltac:(lia) ltac:(lia) eq_refl)
    as (ta & tb & H1 & H2 & H3 & _).
  exists ta, tb. repeat split; assumption.
Defined.

(** C8 as stated fails: 2^32 and 6 agree modulo 10 and are both below
    2^48, yet their body digits are 0 and 6. *)
Lemma truncation_collision_counterexample :
  2 ^ 32 <> 6 /\
  2 ^ 32 <= 2 ^ 48 - 1 /\ 6 <= 2 ^ 48 - 1 /\
  2 ^ 32 mod 10 = 6 mod 10 /\
  exists ta tb,
    unlink_specific_accessory SipHash.hash (2 ^ 32) 1 zero_key = Ok ta /\
    unlink_specific_accessory SipHash.hash 6 1 zero_key = Ok tb /\
    body ta = lit "0" /\ body tb = lit "6" /\
    body ta <> body tb.
Proof.
  split; [lia |]. split; [lia |]. split; [lia |]. split; [reflexivity |].
  exists (Token 2 (lit "0") (lit "189771")), (Token 2 (lit "6") (lit "140968")).
  split; [vm_compute; reflexivity |].
  split; [vm_compute; reflexivity |].
  split; [reflexivity |]. split; [reflexivity |].
  cbn. discriminate.
Qed.

(** ** Serialised tokens *)

Section SerialisedTokens.

Variable full_obscure : str -> nat -> str.
Hypothesis Hlen : length_preserving full_obscure.

Lemma obscured_length (tok : token) :
  length (to_digits full_obscure tok true)
  = length (to_digits full_obscure tok false).
Proof. rewrite to_digits_obscured. apply Hlen. Qed.

Lemma serialised_length (tok : token) (obscured : bool) :
  0 <= type_code tok < 10 ->
  length (to_digits full_obscure tok obscured)
  = (1 + length (body tok) + length (auth tok))%nat.
Proof.
  intros Ht. destruct obscured.
  - rewrite obscured_length. now apply plain_length.
  - now apply plain_length.
Qed.

Lemma obscured_suffix (tok : token) :
  prefix_only full_obscure ->
  0 <= type_code tok < 10 ->
  skipn (1 + length (body tok)) (to_digits full_obscure tok true)
  = auth tok.
Proof.
  intros Hpre Ht. rewrite to_digits_obscured.
  rewrite str_int_digit by assumption.
  cbn [length]. rewrite Hpre, to_digits_plain.
  rewrite str_int_digit by assumption.
  cbn [app Nat.add skipn].
  rewrite skipn_app, skipn_all, Nat.sub_diag. reflexivity.
Qed.

Lemma plain_suffix (tok : token) :
  0 <= type_code tok < 10 ->
  skipn (1 + length (body tok)) (to_digits full_obscure tok false)
  = auth tok.
Proof.
  intros Ht. rewrite to_digits_plain, str_int_digit by assumption.
  cbn [app Nat.add skipn].
  rewrite skipn_app, skipn_all, Nat.sub_diag. reflexivity.
Qed.

Lemma serialised_all_digits (tok : token) (obscured : bool) :
  digits_to_digits full_obscure ->
  0 <= type_code tok < 10 ->
  forallb is_digit (body tok) = true ->
  forallb is_digit (auth tok) = true ->
  forallb is_digit (to_digits full_obscure tok obscured) = true.
Proof.
  intros Hdig Ht Hb Ha. destruct obscured.
  - rewrite to_digits_obscured. apply Hdig. now apply plain_all_digits.
  - now apply plain_all_digits.
Qed.

End SerialisedTokens.

(** C5.  For every constructed token, with [full_obscure] any
    length-preserving transform that touches only the leading
    [obscured_digit_count] characters: the obscured and the plain
    serialisations have the same length and the same last [len(auth)]
    characters, namely the auth field (so the same last 6 characters when
    the auth has 6); the transform is applied with a count of exactly
    [1 + len(body)]. *)
Theorem obfuscation_boundary
    (full_obscure : str -> nat -> str)
    (type_ : type_arg) (body_ auth_ : str) (tok : token) :
  length_preserving full_obscure ->
  prefix_only full_obscure ->
  ChannelOriginCommandToken_init type_ body_ auth_ = Ok tok ->
  let plain := to_digits full_obscure tok false in
  let obscured := to_digits full_obscure tok true in
  length obscured = length plain /\
  obscured = full_obscure plain (1 + length (body tok))%nat /\
  skipn (length obscured - length (auth tok)) obscured = auth tok /\
  skipn (length plain - length (auth tok)) plain = auth tok /\
  (length (auth tok) = 6%nat ->
   slice_last 6 obscured = slice_last 6 plain).
Proof.
  intros Hlen Hpre Hinit plain obscured.
  assert (Ht : 0 <= type_code tok < 10).
  { destruct type_ as [x | x]; cbn in Hinit; [| discriminate].
    injection Hinit as <-. apply type_value_digit. }
  assert (Hl : length obscured = length plain)
    by now apply obscured_length.
  assert (Hp : length plain = (1 + length (body tok) + length (auth tok))%nat)
    by now apply plain_length.
  assert (Hso : skipn (length obscured - length (auth tok)) obscured
                = auth tok).
  { replace (length obscured - length (auth tok))%nat
      with (1 + length (body tok))%nat by lia.
    now apply obscured_suffix. }
  assert (Hsp : skipn (length plain - length (auth tok)) plain = auth tok).
  { replace (length plain - length (auth tok))%nat
      with (1 + length (body tok))%nat by lia.
    now apply plain_suffix. }
  split; [exact Hl |]. split.
  { unfold obscured. rewrite to_digits_obscured.
    now rewrite str_int_digit by assumption. }
  split; [exact Hso |]. split; [exact Hsp |].
  intros H6. unfold slice_last. rewrite H6 in Hso, Hsp. congruence.
Qed.

Lemma obfuscation_boundary_witness :
  let tok := Token 9 (lit "503402") (lit "838953") in
  length (to_digits full_obscure_model tok true)
    = length (to_digits full_obscure_model tok false) /\
  slice_last 6 (to_digits full_obscure_model tok true)
    = slice_last 6 (to_digits full_obscure_model tok false).
Proof.
  intros tok.
  destruct (obfuscation_boundary full_obscure_model
              (OfOriginCommandType OriginCommandType.LINK_ACCESSORY_MODE_3)
              (lit "503402") (lit "838953") tok
              full_obscure_model_length full_obscure_model_prefix eq_refl)
    as (H1 & _ & _ & _ & H5).
  split; [exact H1 | apply H5; reflexivity].
Defined.

Lemma token_serialisation
    (full_obscure : str -> nat -> str) (tok : token) (obscured : bool)
    (n m : nat) :
  length_preserving full_obscure ->
  digits_to_digits full_obscure ->
  0 <= type_code tok < 10 ->
  forallb is_digit (body tok) = true -> length (body tok) = n ->
  forallb is_digit (auth tok) = true -> length (auth tok) = m ->
  let s := to_digits full_obscure tok obscured in
  forallb is_digit s = true /\
  length s = (1 + length (body tok) + length (auth tok))%nat /\
  length s = (1 + n + m)%nat.
Proof.
  intros Hlen Hdig Ht Hb Hn Ha Hm s. subst s.
  split; [now apply serialised_all_digits |].
  rewrite serialised_length by assumption. lia.
Qed.

(** C7.  On valid inputs (16-byte keys, 32-bit counters), and with
    [full_obscure] length-preserving and mapping digits to digits, the
    serialised token (obscured or not) consists of decimal digits only and
    has length [1 + len(body) + len(auth)]: 9 for generic controller
    action tokens, 8 for specific-accessory tokens and 13 for link
    challenge tokens, whatever the input values. *)
Theorem serialised_token_lengths
    (mac : bytes -> bytes -> Z) (full_obscure : str -> nat -> str)
    (obscured : bool) :
  length_preserving full_obscure ->
  digits_to_digits full_obscure ->
  (forall type_ count key,
      length key = 16%nat -> 0 <= count < 2 ^ 32 ->
      exists tok,
        _generic_controller_action_builder mac type_ count key = Ok tok /\
        let s := to_digits full_obscure tok obscured in
        forallb is_digit s = true /\
        length s = (1 + length (body tok) + length (auth tok))%nat /\
        length s = 9%nat) /\
  (forall type_ id count key,
      length key = 16%nat -> 0 <= count < 2 ^ 32 ->
      exists tok,
        _specific_accessory_builder mac type_ id count key = Ok tok /\
        let s := to_digits full_obscure tok obscured in
        forallb is_digit s = true /\
        length s = (1 + length (body tok) + length (auth tok))%nat /\
        length s = 8%nat) /\
  (forall ccount acount akey ckey,
      length akey = 16%nat -> length ckey = 16%nat ->
      0 <= ccount < 2 ^ 32 -> 0 <= acount < 2 ^ 32 ->
      exists tok,
        challenge_mode_3 mac ccount acount akey ckey = Ok tok /\
        let s := to_digits full_obscure tok obscured in
        forallb is_digit s = true /\
        length s = (1 + length (body tok) + length (auth tok))%nat /\
        length s = 13%nat).
Proof.
  intros Hlen Hdig. split; [| split].
  - intros type_ count key Hk Hc.
    eexists. split; [apply generic_builder_ok; assumption |].
    apply (token_serialisation full_obscure _ obscured 2 6);
      cbn [type_code body auth]; try assumption; try lia;
      try apply ls_digits_all_digits; try apply ls_digits_length;
      destruct type_; reflexivity.
  - intros type_ id count key Hk Hc.
    eexists. split; [apply specific_builder_ok; assumption |].
    apply (token_serialisation full_obscure _ obscured 1 6);
      cbn [type_code body auth]; try assumption;
      try apply type_value_digit;
      try apply ls_digits_all_digits; try apply ls_digits_length;
      try reflexivity.
    cbn [forallb]. now rewrite digit_char_is_digit by apply mod10_bound.
  - intros ccount acount akey ckey Hka Hkc Hc Ha.
    eexists. split; [apply link_builder_ok; assumption |].
    apply (token_serialisation full_obscure _ obscured 6 6);
      cbn [type_code body auth]; try assumption; try lia;
      try apply ls_digits_all_digits; apply ls_digits_length.
Qed.

Lemma serialised_token_lengths_witness :
  (exists tok,
      unlink_all_accessories SipHash.hash 1 zero_key = Ok tok /\
      length (to_digits full_obscure_model tok true) = 9%nat) /\
  (exists tok,
      unlock_specific_accessory SipHash.hash (2 ^ 47 + 3) 1 zero_key
      = Ok tok /\
      length (to_digits full_obscure_model tok true) = 8%nat) /\
  (exists tok,
      challenge_mode_3 SipHash.hash 1 2 zero_key zero_key = Ok tok /\
      length (to_digits full_obscure_model tok true) = 13%nat).
Proof.
  destruct (serialised_token_lengths SipHash.hash full_obscure_model true
              full_obscure_model_length full_obscure_model_digits)
    as (Hg & Hs & Hl).
  split; [| split].
  - destruct (Hg GenericControllerActionType.UNLINK_ALL_ACCESSORIES 1
                zero_key eq_refl ltac:(lia)) as (tok & H1 & _ & _ & H2).
    exists tok. split; assumption.
  - destruct (Hs OriginCommandType.UNLOCK_ACCESSORY (2 ^ 47 + 3) 1
                zero_key eq_refl ltac:(lia)) as (tok & H1 & _ & _ & H2).
    exists tok. split; assumption.
  - destruct (Hl 1 2 zero_key zero_key eq_refl eq_refl
                ltac:(lia) ltac:(lia)) as (tok & H1 & _ & _ & H2).
    exists tok. split; assumption.
Defined.

(** C9.  With the all-zero 16-byte controller key and a command count of
    1, building the unlink-all token yields a 9-character string of
    decimal digits; serialised unobscured it starts with 000 and ends with
    the 6 least-significant decimal digits of the low 32 bits of the MAC of
    the packing of (1, 0, 0); the obscured serialisation ends with the
    same 6 digits. *)
Theorem unlink_all_example
    (mac : bytes -> bytes -> Z) (full_obscure : str -> nat -> str) :
  length_preserving full_obscure ->
  prefix_only full_obscure ->
  digits_to_digits full_obscure ->
  let packing := [x01; x00; x00; x00; x00; x00; x00; x00; x00] in
  let auth_digits := ls_digits 6 (mac zero_key packing mod 2 ^ 32) in
  exists tok,
    unlink_all_accessories mac 1 zero_key = Ok tok /\
    (let plain := to_digits full_obscure tok false in
     length plain = 9%nat /\
     forallb is_digit plain = true /\
     firstn 3 plain = lit "000" /\
     skipn 3 plain = auth_digits) /\
    (let obscured := to_digits full_obscure tok true in
     length obscured = 9%nat /\
     forallb is_digit obscured = true /\
     skipn 3 obscured = auth_digits).
Proof.
  intros Hlen Hpre Hdig packing auth_digits.
  exists (Token 0 (lit "00") auth_digits).
  split.
  { unfold unlink_all_accessories.
    rewrite generic_builder_ok by (try reflexivity; lia). reflexivity. }
  assert (Ha : forallb is_digit auth_digits = true)
    by apply ls_digits_all_digits.
  assert (Hl : length auth_digits = 6%nat) by apply ls_digits_length.
  split.
  - destruct (token_serialisation full_obscure
                (Token 0 (lit "00") auth_digits) false 2 6)
      as (Hd & _ & H9); cbn [type_code body auth]; try assumption;
      try lia; try reflexivity.
    repeat split; try assumption; reflexivity.
  - destruct (token_serialisation full_obscure
                (Token 0 (lit "00") auth_digits) true 2 6)
      as (Hd & _ & H9); cbn [type_code body auth]; try assumption;
      try lia; try reflexivity.
    repeat split; try assumption.
    apply (obscured_suffix full_obscure
             (Token 0 (lit "00") auth_digits) Hpre).
    cbn [type_code]. lia.
Qed.

Lemma unlink_all_example_witness :
  exists tok,
    unlink_all_accessories SipHash.hash 1 zero_key = Ok tok /\
    to_digits full_obscure_model tok false = lit "000130494" /\
    skipn 3 (to_digits full_obscure_model tok true) = lit "130494".
Proof.
  destruct (unlink_all_example SipHash.hash full_obscure_model
              full_obscure_model_length full_obscure_model_prefix
              full_obscure_model_digits)
    as (tok & H1 & (_ & _ & H3 & H4) & (_ & _ & H5)).
  exists tok. split; [exact H1 |]. split.
  - rewrite <- (firstn_skipn 3 (to_digits full_obscure_model tok false)).
    rewrite H3, H4. vm_compute. reflexivity.
  - rewrite H5. vm_compute. reflexivity.
Defined.

(** * Further properties of the module *)

(** ** Outcomes of the builders *)

Section Outcomes.

Variable mac : bytes -> bytes -> Z.

Lemma pack_first_out_of_range (bits : nat) (v : Z) (rest : list (nat * Z)) :
  v < 0 \/ 2 ^ Z.of_nat bits <= v ->
  pack ((bits, v) :: rest) = Raise CreationError.
Proof.
  intros Hv. cbn [pack]. now rewrite uintle_out_of_range.
Qed.

Lemma generic_builder_out_of_range (type_ : GenericControllerActionType.t)
    (count : Z) (key : bytes) :
  length key = 16%nat -> count < 0 \/ 2 ^ 32 <= count ->
  _generic_controller_action_builder mac type_ count key
  = Raise CreationError.
Proof.
  intros Hk Hc. unfold _generic_controller_action_builder.
  rewrite assert_true by now apply key_check_ok.
  now rewrite pack_first_out_of_range by exact Hc.
Qed.

Lemma specific_builder_out_of_range (type_ : OriginCommandType.t)
    (id count : Z) (key : bytes) :
  length key = 16%nat -> count < 0 \/ 2 ^ 32 <= count ->
  _specific_accessory_builder mac type_ id count key = Raise CreationError.
Proof.
  intros Hk Hc. unfold _specific_accessory_builder.
  rewrite assert_true by now apply key_check_ok.
  now rewrite pack_first_out_of_range by exact Hc.
Qed.

Lemma link_builder_out_of_range (ccount acount : Z) (akey ckey : bytes) :
  length akey = 16%nat -> length ckey = 16%nat ->
  (ccount < 0 \/ 2 ^ 32 <= ccount) \/ (acount < 0 \/ 2 ^ 32 <= acount) ->
  challenge_mode_3 mac ccount acount akey ckey = Raise CreationError.
Proof.
  intros Hka Hkc Hbad. unfold challenge_mode_3.
  rewrite assert_true by now apply key_check_ok.
  rewrite assert_true by now apply key_check_ok.
  assert (Hcases : (acount < 0 \/ 2 ^ 32 <= acount) \/ 0 <= acount < 2 ^ 32)
    by lia.
  destruct Hcases as [Ha | Ha].
  - now rewrite pack_first_out_of_range by exact Ha.
  - destruct Hbad as [Hc | Ha']; [| lia].
    rewrite pack4_ok by assumption.
    cbn [bind]. rewrite assert_true by now rewrite le_bytes_length.
    rewrite digits_from_siphash_ls by lia.
    rewrite int_of_str_ls_digits by (try lia; apply Z.mod_pos_bound; lia).
    cbn [bind]. now rewrite pack_first_out_of_range by exact Hc.
Qed.

End Outcomes.





Lemma Ok_inj (A : Type) (a b : A) : Ok a = Ok b -> a = b.
Proof. intros H. now injection H. Qed.

(** ** What a returned token tells about the call *)

Section Inversion.

Variable mac : bytes -> bytes -> Z.

Lemma generic_builder_inv (type_ : GenericControllerActionType.t)
    (count : Z) (key : bytes) (tok : token) :
  _generic_controller_action_builder mac type_ count key = Ok tok ->
  length key = 16%nat /\ 0 <= count < 2 ^ 32.
Proof.
  intros H.
  destruct (Nat.eq_dec (length key) 16) as [Hk | Hk].
  - split; [assumption |].
    assert (Hc : (count < 0 \/ 2 ^ 32 <= count) \/ 0 <= count < 2 ^ 32)
      by lia.
    destruct Hc as [Hc | Hc]; [| assumption].
    rewrite generic_builder_out_of_range in H by assumption. discriminate.
  - rewrite generic_builder_bad_key in H by assumption. discriminate.
Qed.

Lemma specific_builder_inv (type_ : OriginCommandType.t)
    (id count : Z) (key : bytes) (tok : token) :
  _specific_accessory_builder mac type_ id count key = Ok tok ->
  length key = 16%nat /\ 0 <= count < 2 ^ 32.
Proof.
  intros H.
  destruct (Nat.eq_dec (length key) 16) as [Hk | Hk].
  - split; [assumption |].
    assert (Hc : (count < 0 \/ 2 ^ 32 <= count) \/ 0 <= count < 2 ^ 32)
      by lia.
    destruct Hc as [Hc | Hc]; [| assumption].
    rewrite specific_builder_out_of_range in H by assumption. discriminate.
  - rewrite specific_builder_bad_key in H by assumption. discriminate.
Qed.

Lemma link_builder_inv (ccount acount : Z) (akey ckey : bytes)
    (tok : token) :
  challenge_mode_3 mac ccount acount akey ckey = Ok tok ->
  (length akey = 16%nat /\ length ckey = 16%nat) /\
  (0 <= ccount < 2 ^ 32 /\ 0 <= acount < 2 ^ 32).
Proof.
  intros H.
  destruct (Nat.eq_dec (length akey) 16) as [Hka | Hka];
    [destruct (Nat.eq_dec (length ckey) 16) as [Hkc | Hkc] |].
  - split; [split; assumption |].
    assert (Hc : ((ccount < 0 \/ 2 ^ 32 <= ccount) \/
                  (acount < 0 \/ 2 ^ 32 <= acount)) \/
                 (0 <= ccount < 2 ^ 32 /\ 0 <= acount < 2 ^ 32)) by lia.
    destruct Hc as [Hc | Hc]; [| assumption].
    rewrite link_builder_out_of_range in H by assumption. discriminate.
  - rewrite link_builder_bad_key in H by (right; assumption). discriminate.
  - rewrite link_builder_bad_key in H by (left; assumption). discriminate.
Qed.

Lemma generic_builder_not_type_error (type_ : GenericControllerActionType.t)
    (count : Z) (key : bytes) :
  _generic_controller_action_builder mac type_ count key <> Raise TypeError.
Proof.
  destruct (Nat.eq_dec (length key) 16) as [Hk | Hk].
  - assert (Hc : (count < 0 \/ 2 ^ 32 <= count) \/ 0 <= count < 2 ^ 32)
      by lia.
    destruct Hc as [Hc | Hc].
    + rewrite generic_builder_out_of_range by assumption. discriminate.
    + rewrite generic_builder_ok by assumption. discriminate.
  - rewrite generic_builder_bad_key by assumption. discriminate.
Qed.

Lemma specific_builder_not_type_error (type_ : OriginCommandType.t)
    (id count : Z) (key : bytes) :
  _specific_accessory_builder mac type_ id count key <> Raise TypeError.
Proof.
  destruct (Nat.eq_dec (length key) 16) as [Hk | Hk].
  - assert (Hc : (count < 0 \/ 2 ^ 32 <= count) \/ 0 <= count < 2 ^ 32)
      by lia.
    destruct Hc as [Hc | Hc].
    + rewrite specific_builder_out_of_range by assumption. discriminate.
    + rewrite specific_builder_ok by assumption. discriminate.
  - rewrite specific_builder_bad_key by assumption. discriminate.
Qed.

Lemma link_builder_not_type_error (ccount acount : Z) (akey ckey : bytes) :
  challenge_mode_3 mac ccount acount akey ckey <> Raise TypeError.
Proof.
  destruct (Nat.eq_dec (length akey) 16) as [Hka | Hka];
    [destruct (Nat.eq_dec (length ckey) 16) as [Hkc | Hkc] |].
  - assert (Hc : ((ccount < 0 \/ 2 ^ 32 <= ccount) \/
                  (acount < 0 \/ 2 ^ 32 <= acount)) \/
                 (0 <= ccount < 2 ^ 32 /\ 0 <= acount < 2 ^ 32)) by lia.
    destruct Hc as [Hc | [Hc Ha]].
    + rewrite link_builder_out_of_range by assumption. discriminate.
    + rewrite link_builder_ok by assumption. discriminate.
  - rewrite link_builder_bad_key by (right; assumption). discriminate.
  - rewrite link_builder_bad_key by (left; assumption). discriminate.
Qed.

End Inversion.

(** ** The specific-accessory MAC input *)

Lemma packing11_fields (c t a d : Z) :
  0 <= c < 2 ^ 32 -> 0 <= t < 2 ^ 8 -> 0 <= a < 2 ^ 16 -> 0 <= d < 2 ^ 32 ->
  let p := packing11 c t a d in
  length p = 11%nat /\
  le_decode (firstn 4 p) = c /\
  le_decode (firstn 1 (skipn 4 p)) = t /\
  le_decode (firstn 2 (skipn 5 p)) = a /\
  le_decode (skipn 7 p) = d.
Proof.
  intros Hc Ht Ha Hd p. subst p.
  split; [apply packing11_length |].
  unfold packing11.
  rewrite firstn_le_bytes_app.
  replace (skipn 7 (le_bytes 4 c ++ le_bytes 1 t ++ le_bytes 2 a ++ le_bytes 4 d))
    with (le_bytes 4 d).
  2:{ change 7%nat with (2 + (1 + 4))%nat. rewrite <- !skipn_skipn.
      now rewrite !skipn_le_bytes_app. }
  replace (skipn 5 (le_bytes 4 c ++ le_bytes 1 t ++ le_bytes 2 a ++ le_bytes 4 d))
    with (le_bytes 2 a ++ le_bytes 4 d).
  2:{ change 5%nat with (1 + 4)%nat. rewrite <- !skipn_skipn.
      now rewrite !skipn_le_bytes_app. }
  rewrite skipn_le_bytes_app, !firstn_le_bytes_app.
  rewrite !le_decode_le_bytes.
  change (2 ^ (8 * Z.of_nat 4)) with (2 ^ 32).
  change (2 ^ (8 * Z.of_nat 2)) with (2 ^ 16).
  change (2 ^ (8 * Z.of_nat 1)) with (2 ^ 8).
  rewrite !Z.mod_small by assumption. auto.
Qed.

Lemma authority_small (id : Z) :
  0 <= id < 2 ^ 48 ->
  Z.shiftr (Z.land id 0xFFFF00000000) 32 = id / 2 ^ 32.
Proof.
  intros Hid. rewrite authority_bits. apply Z.mod_small.
  split; [apply Z.div_pos; lia |].
  apply Z.div_lt_upper_bound; lia.
Qed.

(** X4.  Given a 16-byte key, an unsigned 32-bit counter and an
    identifier below 2^48, the specific-accessory builder returns a token
    whose type code is that of the command type, whose body is the last
    decimal digit of the identifier's low 32 bits, and whose auth is the 6
    least-significant decimal digits of the low 32 bits of the MAC of the
    11-byte little-endian packing of (counter, type code, identifier
    divided by 2^32, identifier modulo 2^32); the last two fields together
    hold the whole identifier. *)
Theorem specific_builder_spec
    (mac : bytes -> bytes -> Z) (type_ : OriginCommandType.t)
    (accessory_nexus_id controller_command_count : Z)
    (controller_sym_key : bytes) :
  length controller_sym_key = 16%nat ->
  0 <= controller_command_count < 2 ^ 32 ->
  0 <= accessory_nexus_id < 2 ^ 48 ->
  let authority := accessory_nexus_id / 2 ^ 32 in
  let device := accessory_nexus_id mod 2 ^ 32 in
  let packing :=
    packing11 controller_command_count (OriginCommandType.value type_)
      authority device in
  exists tok,
    _specific_accessory_builder mac type_ accessory_nexus_id
      controller_command_count controller_sym_key = Ok tok /\
    type_code tok = OriginCommandType.value type_ /\
    body tok = ls_digits 1 device /\
    auth tok = ls_digits 6 (mac controller_sym_key packing mod 2 ^ 32) /\
    (length packing = 11%nat /\
     le_decode (firstn 4 packing) = controller_command_count /\
     le_decode (firstn 1 (skipn 4 packing)) = OriginCommandType.value type_ /\
     le_decode (firstn 2 (skipn 5 packing)) = authority /\
     le_decode (skipn 7 packing) = device) /\
    authority * 2 ^ 32 + device = accessory_nexus_id.
Proof.
  intros Hk Hc Hid authority device packing.
  eexists. split; [apply specific_builder_ok; assumption |].
  cbn [type_code body auth].
  rewrite authority_small, land_mask32 by assumption.
  split; [reflexivity |]. split; [reflexivity |]. split; [reflexivity |].
  split.
  - apply packing11_fields; try assumption.
    + apply type_value_byte.
    + subst authority. split; [apply Z.div_pos; lia |].
      apply Z.div_lt_upper_bound; lia.
    + apply Z.mod_pos_bound. lia.
  - subst authority device.
    pose proof (Z.div_mod accessory_nexus_id (2 ^ 32) ltac:(lia)). lia.
Qed.

Lemma specific_builder_spec_witness :
  exists tok,
    unlock_specific_accessory SipHash.hash (2 ^ 40 + 7) 3 zero_key = Ok tok /\
    type_code tok = 1 /\
    body tok = lit "7" /\
    auth tok
    = ls_digits 6
        (SipHash.hash zero_key (packing11 3 1 (2 ^ 8) 7) mod 2 ^ 32).
Proof.
  destruct (specific_builder_spec SipHash.hash
              OriginCommandType.UNLOCK_ACCESSORY (2 ^ 40 + 7) 3 zero_key
              eq_refl ltac:(lia) ltac:(lia))
    as (tok & H1 & H2 & H3 & H4 & _).
  exists tok. repeat split; assumption.
Defined.

(** X5.  With a valid key and counter, two different identifiers below
    2^48 are hashed through different MAC inputs, whichever keyed hash is
    used: the body digit may collide, the packing does not. *)
Theorem specific_mac_input_distinguishes
    (type_ : OriginCommandType.t) (a b count : Z) (key : bytes) :
  length key = 16%nat ->
  0 <= count < 2 ^ 32 ->
  0 <= a < 2 ^ 48 ->
  0 <= b < 2 ^ 48 ->
  a <> b ->
  exists pa pb : bytes,
    pa <> pb /\
    forall mac : bytes -> bytes -> Z,
      (exists ta,
          _specific_accessory_builder mac type_ a count key = Ok ta /\
          auth ta = ls_digits 6 (mac key pa mod 2 ^ 32)) /\
      (exists tb,
          _specific_accessory_builder mac type_ b count key = Ok tb /\
          auth tb = ls_digits 6 (mac key pb mod 2 ^ 32)).
Proof.
  intros Hk Hc Ha Hb Hab.
  exists (packing11 count (OriginCommandType.value type_)
            (a / 2 ^ 32) (a mod 2 ^ 32)),
         (packing11 count (OriginCommandType.value type_)
            (b / 2 ^ 32) (b mod 2 ^ 32)).
  split.
  - intros Heq. apply Hab.
    assert (Hfa := packing11_fields count (OriginCommandType.value type_)
                     (a / 2 ^ 32) (a mod 2 ^ 32) Hc (type_value_byte type_)).
    assert (Hfb := packing11_fields count (OriginCommandType.value type_)
                     (b / 2 ^ 32) (b mod 2 ^ 32) Hc (type_value_byte type_)).
    destruct Hfa as (_ & _ & _ & Haa & Had);
      [split; [apply Z.div_pos; lia | apply Z.div_lt_upper_bound; lia]
      | apply Z.mod_pos_bound; lia |].
    destruct Hfb as (_ & _ & _ & Hba & Hbd);
      [split; [apply Z.div_pos; lia | apply Z.div_lt_upper_bound; lia]
      | apply Z.mod_pos_bound; lia |].
    rewrite Heq in Haa, Had.
    rewrite (Z.div_mod a (2 ^ 32)), (Z.div_mod b (2 ^ 32)) by lia.
    congruence.
  - intros mac. split; eexists;
      (split; [apply specific_builder_ok; assumption |]);
      cbn [auth]; now rewrite authority_small, land_mask32 by assumption.
Qed.

(** X6.  The specific-accessory builder reads the identifier modulo 2^48
    only, for every integer: a negative identifier is not refused either,
    and yields what its two's-complement low 48 bits yield. *)
Theorem specific_builder_identifier_mod_2_48
    (mac : bytes -> bytes -> Z) (type_ : OriginCommandType.t)
    (id count : Z) (key : bytes) :
  _specific_accessory_builder mac type_ id count key
  = _specific_accessory_builder mac type_ (id mod 2 ^ 48) count key /\
  (id < 0 -> length key = 16%nat -> 0 <= count < 2 ^ 32 ->
   exists tok, _specific_accessory_builder mac type_ id count key = Ok tok).
Proof.
  split.
  - rewrite (Z.div_mod id (2 ^ 48)) at 1 by lia.
    rewrite Z.add_comm, (Z.mul_comm (2 ^ 48)).
    apply specific_builder_high_bits.
  - intros _ Hk Hc. eexists. apply specific_builder_ok; assumption.
Qed.

Lemma specific_builder_identifier_mod_2_48_witness :
  (exists tok,
      unlink_specific_accessory SipHash.hash (-1) 1 zero_key = Ok tok) /\
  unlink_specific_accessory SipHash.hash (-1) 1 zero_key
  = unlink_specific_accessory SipHash.hash (2 ^ 48 - 1) 1 zero_key.
Proof.
  destruct (specific_builder_identifier_mod_2_48 SipHash.hash
              OriginCommandType.UNLINK_ACCESSORY (-1) 1 zero_key)
    as (Heq & Hok).
  split.
  - apply Hok; [lia | reflexivity | lia].
  - exact Heq.
Defined.

(** X7.  In the link builder the challenge digits (the body) depend on the
    accessory key and the accessory counter only, and the auth depends on
    the accessory side only through those digits: two calls with the same
    accessory key and counter return the same body whatever the controller
    key and counter are, and two calls with the same controller key and
    counter whose bodies agree return the same token. *)
Theorem link_chain_independence (mac : bytes -> bytes -> Z) :
  (forall ccount ccount' acount akey ckey ckey' t t',
      challenge_mode_3 mac ccount acount akey ckey = Ok t ->
      challenge_mode_3 mac ccount' acount akey ckey' = Ok t' ->
      body t = body t') /\
  (forall ccount ckey acount acount' akey akey' t t',
      challenge_mode_3 mac ccount acount akey ckey = Ok t ->
      challenge_mode_3 mac ccount acount' akey' ckey = Ok t' ->
      body t = body t' ->
      t = t').
Proof.
  split.
  - intros ccount ccount' acount akey ckey ckey' t t' H H'.
    destruct (link_builder_inv mac _ _ _ _ _ H) as ((Hka & Hkc) & (Hc & Ha)).
    destruct (link_builder_inv mac _ _ _ _ _ H') as ((_ & Hkc') & (Hc' & _)).
    rewrite link_builder_ok in H, H' by assumption.
    apply Ok_inj in H. apply Ok_inj in H'. subst t t'. reflexivity.
  - intros ccount ckey acount acount' akey akey' t t' H H' Hbody.
    destruct (link_builder_inv mac _ _ _ _ _ H) as ((Hka & Hkc) & (Hc & Ha)).
    destruct (link_builder_inv mac _ _ _ _ _ H') as ((Hka' & _) & (_ & Ha')).
    rewrite link_builder_ok in H, H' by assumption.
    apply Ok_inj in H. apply Ok_inj in H'. subst t t'.
    cbn [body] in Hbody.
    assert (Hv : challenge_value mac akey acount
                 = challenge_value mac akey' acount').
    { unfold challenge_value.
      assert (Hi := f_equal int_of_str Hbody).
      rewrite !int_of_str_ls_digits in Hi
        by (try lia; apply Z.mod_pos_bound; lia).
      apply Ok_inj in Hi. exact Hi. }
    rewrite Hbody, Hv. reflexivity.
Qed.

Lemma link_chain_independence_witness :
  let t := Token 9 (lit "503402") (lit "838953") in
  let t' := Token 9 (lit "503402") (lit "230819") in
  challenge_mode_3 SipHash.hash 1 2 zero_key zero_key = Ok t /\
  challenge_mode_3 SipHash.hash 77 2 zero_key (repeat x01 16) = Ok t' /\
  body t = body t'.
Proof.
  intros t t'.
  assert (H : challenge_mode_3 SipHash.hash 1 2 zero_key zero_key = Ok t)
    by (vm_compute; reflexivity).
  assert (H' : challenge_mode_3 SipHash.hash 77 2 zero_key (repeat x01 16)
               = Ok t') by (vm_compute; reflexivity).
  split; [exact H |]. split; [exact H' |].
  exact (proj1 (link_chain_independence SipHash.hash)
           1 77 2 zero_key zero_key (repeat x01 16) t t' H H').
Defined.

(** ** Zero requested digits *)

Lemma dec_aux_nonempty (fuel : nat) (v : Z) (acc : str) :
  (1 <= length (dec_aux (S fuel) v acc))%nat.
Proof.
  revert v acc. induction fuel as [| fuel IH]; intros v acc.
  - cbn [dec_aux]. destruct (v / 10 =? 0); cbn [length]; lia.
  - change (dec_aux (S (S fuel)) v acc)
      with (if v / 10 =? 0 then digit_char (v mod 10) :: acc
            else dec_aux (S fuel) (v / 10) (digit_char (v mod 10) :: acc)).
    destruct (v / 10 =? 0); [cbn [length]; lia | apply IH].
Qed.

Lemma dec_aux_length_bound (fuel : nat) :
  forall (v : Z) (acc : str) (d : nat),
    0 <= v < 10 ^ Z.of_nat (S d) ->
    (length (dec_aux (S fuel) v acc) <= S d + length acc)%nat.
Proof.
  induction fuel as [| fuel IH]; intros v acc d Hv.
  - cbn [dec_aux]. destruct (v / 10 =? 0); cbn [length]; lia.
  - change (dec_aux (S (S fuel)) v acc)
      with (if v / 10 =? 0 then digit_char (v mod 10) :: acc
            else dec_aux (S fuel) (v / 10) (digit_char (v mod 10) :: acc)).
    destruct (Z.eqb_spec (v / 10) 0) as [Hq | Hq]; [cbn [length]; lia |].
    destruct d as [| d].
    + change (10 ^ Z.of_nat 1) with 10 in Hv.
      exfalso. apply Hq. apply Z.div_small. lia.
    + specialize (IH (v / 10) (digit_char (v mod 10) :: acc) d).
      cbn [length] in IH.
      assert (Hq' : 0 <= v / 10 < 10 ^ Z.of_nat (S d)).
      { split; [apply Z.div_pos; lia |].
        apply Z.div_lt_upper_bound; [lia |].
        rewrite (Nat2Z.inj_succ (S d)), Z.pow_succ_r in Hv by lia. lia. }
      specialize (IH Hq'). lia.
Qed.

(** X8.  Asked for zero digits, [digits_from_siphash] does not return the
    empty string: the format has width 0 and the slice [[-0:]] keeps
    everything, so the result is the whole decimal representation of the
    tag's low 32 bits, between 1 and 10 characters long. *)
Theorem digits_from_siphash_zero_digits
    (mac : bytes -> bytes -> Z) (f : SipHash_2_4) :
  digits_from_siphash mac f 0 = str_int (Z.land (hash mac f) 0xffffffff) /\
  (1 <= length (digits_from_siphash mac f 0) <= 10)%nat.
Proof.
  pose proof (mask32_bound (hash mac f)) as Hb.
  unfold digits_from_siphash, slice_last, format_0d, str_int, zfill.
  change 0xffffffff with 0xFFFFFFFF.
  destruct (Z.ltb_spec (Z.land (hash mac f) 0xFFFFFFFF) 0) as [Hneg | _];
    [lia |].
  cbn [Nat.sub repeat app]. split; [reflexivity |].
  unfold dec_nonneg. split; [apply dec_aux_nonempty |].
  pose proof (dec_aux_length_bound
                (Z.to_nat (Z.log2 (Z.land (hash mac f) 0xFFFFFFFF)))
                (Z.land (hash mac f) 0xFFFFFFFF) [] 9) as H.
  cbn [length] in H. rewrite Nat.add_0_r in H. apply H.
  change (10 ^ Z.of_nat 10) with 10000000000. lia.
Qed.

(** ** Dispatch *)

Ltac kwargs_cases kw :=
  destruct kw as [[?ccc |] [?acc |] [?id |] [?ask |] [?csk |]].

Lemma build_shape (mac : bytes -> bytes -> Z)
    (action : ChannelOriginAction.t) (kw : kwargs) (tok : token) :
  build mac action kw = Ok tok ->
  forallb is_digit (body tok) = true /\
  forallb is_digit (auth tok) = true /\
  length (auth tok) = 6%nat /\
  match action with
  | ChannelOriginAction.UNLINK_ALL_ACCESSORIES =>
      type_code tok = 0 /\ body tok = lit "00"
  | ChannelOriginAction.UNLOCK_ALL_ACCESSORIES =>
      type_code tok = 0 /\ body tok = lit "01"
  | ChannelOriginAction.UNLOCK_ACCESSORY =>
      type_code tok = 1 /\ length (body tok) = 1%nat
  | ChannelOriginAction.UNLINK_ACCESSORY =>
      type_code tok = 2 /\ length (body tok) = 1%nat
  | ChannelOriginAction.LINK_ACCESSORY_MODE_3 =>
      type_code tok = 9 /\ length (body tok) = 6%nat
  end.
Proof.
  intros H.
  destruct action; kwargs_cases kw; cbn [build] in H; try discriminate H.
  - unfold unlink_all_accessories in H.
    destruct (generic_builder_inv mac _ _ _ _ H) as (Hk & Hc).
    rewrite generic_builder_ok in H by assumption.
    apply Ok_inj in H. subst tok. cbn [type_code body auth].
    rewrite ls_digits_all_digits, ls_digits_length. repeat split.
  - unfold unlock_all_accessories in H.
    destruct (generic_builder_inv mac _ _ _ _ H) as (Hk & Hc).
    rewrite generic_builder_ok in H by assumption.
    apply Ok_inj in H. subst tok. cbn [type_code body auth].
    rewrite ls_digits_all_digits, ls_digits_length. repeat split.
  - unfold unlock_specific_accessory in H.
    destruct (specific_builder_inv mac _ _ _ _ _ H) as (Hk & Hc).
    rewrite specific_builder_ok in H by assumption.
    apply Ok_inj in H. subst tok. cbn [type_code body auth].
    rewrite ls_digits_all_digits, ls_digits_length. cbn [forallb length].
    rewrite digit_char_is_digit by apply mod10_bound. repeat split.
  - unfold unlink_specific_accessory in H.
    destruct (specific_builder_inv mac _ _ _ _ _ H) as (Hk & Hc).
    rewrite specific_builder_ok in H by assumption.
    apply Ok_inj in H. subst tok. cbn [type_code body auth].
    rewrite ls_digits_all_digits, ls_digits_length. cbn [forallb length].
    rewrite digit_char_is_digit by apply mod10_bound. repeat split.
  - destruct (link_builder_inv mac _ _ _ _ _ H) as ((Hka & Hkc) & (Hc & Ha)).
    rewrite link_builder_ok in H by assumption.
    apply Ok_inj in H. subst tok. cbn [type_code body auth].
    rewrite !ls_digits_all_digits, !ls_digits_length. repeat split.
Qed.

(** X9.  [build] raises [TypeError] exactly when the keyword arguments are
    not exactly the parameters of the constructor the action selects (one
    is missing, or one is passed that the constructor does not take); with
    matching arguments the outcome is the constructor's, which is never a
    [TypeError]. *)
Theorem build_type_error_iff
    (mac : bytes -> bytes -> Z) (action : ChannelOriginAction.t)
    (kw : kwargs) :
  build mac action kw = Raise TypeError <-> takes_kwargs action kw = false.
Proof.
  destruct action; kwargs_cases kw;
    cbn [build takes_kwargs is_some andb negb
         kw_controller_command_count kw_accessory_command_count
         kw_accessory_nexus_id kw_accessory_sym_key kw_controller_sym_key];
    (split; intros H; try reflexivity; try discriminate H; exfalso).
  - exact (generic_builder_not_type_error mac _ _ _ H).
  - exact (generic_builder_not_type_error mac _ _ _ H).
  - exact (specific_builder_not_type_error mac _ _ _ _ H).
  - exact (specific_builder_not_type_error mac _ _ _ _ H).
  - exact (link_builder_not_type_error mac _ _ _ _ H).
Qed.

(** X10.  Every token that [build] returns serialises, unobscured, to a
    string of decimal digits that starts with the digits identifying the
    action (000 unlink-all, 001 unlock-all, 1 unlock accessory, 2 unlink
    accessory, 9 link) and has the length of the action's family (9, 9, 8,
    8, 13). *)
Theorem build_serialisation
    (mac : bytes -> bytes -> Z) (full_obscure : str -> nat -> str)
    (action : ChannelOriginAction.t) (kw : kwargs) (tok : token) :
  build mac action kw = Ok tok ->
  let plain := to_digits full_obscure tok false in
  firstn (length (action_prefix action)) plain = action_prefix action /\
  length plain = action_length action /\
  forallb is_digit plain = true.
Proof.
  intros H plain. subst plain.
  destruct (build_shape mac action kw tok H) as (Hb & Ha & Hl & Hs).
  destruct tok as [tc b a]. cbn [type_code body auth] in *.
  rewrite to_digits_plain. cbn [type_code body auth].
  destruct action; destruct Hs as (-> & Hs);
    try (rewrite Hs in *);
    change (str_int 0) with (lit "0"); change (str_int 1) with (lit "1");
    change (str_int 2) with (lit "2"); change (str_int 9) with (lit "9");
    (split; [reflexivity |]);
    (split; [cbn [lit list_ascii_of_string app length action_length];
             rewrite ?length_app; cbn [length]; lia |]);
    rewrite !forallb_app, ?Hb, Ha; reflexivity.
Qed.

Lemma build_serialisation_witness :
  let kw := Kwargs (Some 5) None (Some 123456789) None (Some zero_key) in
  let tok := Token 1 (lit "9") (lit "199958") in
  build SipHash.hash ChannelOriginAction.UNLOCK_ACCESSORY kw = Ok tok /\
  length (to_digits full_obscure_model tok false) = 8%nat.
Proof.
  intros kw tok.
  assert (H : build SipHash.hash ChannelOriginAction.UNLOCK_ACCESSORY kw
              = Ok tok) by (vm_compute; reflexivity).
  split; [exact H |].
  exact (proj1 (proj2 (build_serialisation SipHash.hash full_obscure_model
                         ChannelOriginAction.UNLOCK_ACCESSORY kw tok H))).
Defined.

Lemma app_inj_length (A : Type) (l1 l2 r1 r2 : list A) :
  length l1 = length l2 -> l1 ++ r1 = l2 ++ r2 -> l1 = l2 /\ r1 = r2.
Proof.
  revert l2. induction l1 as [| x l1 IH]; intros [| y l2] Hl Heq;
    try discriminate Hl.
  - auto.
  - cbn [app] in Heq. injection Heq as -> Heq.
    destruct (IH l2) as (-> & ->); auto.
Qed.

(** X11.  The unobscured serialisation can be read back without
    ambiguity: if two tokens returned by [build] (for any actions and
    arguments) serialise to the same digits, they are the same token and
    come from the same action. *)
Theorem serialisation_unambiguous
    (mac : bytes -> bytes -> Z) (full_obscure : str -> nat -> str)
    (action1 action2 : ChannelOriginAction.t) (kw1 kw2 : kwargs)
    (tok1 tok2 : token) :
  build mac action1 kw1 = Ok tok1 ->
  build mac action2 kw2 = Ok tok2 ->
  to_digits full_obscure tok1 false = to_digits full_obscure tok2 false ->
  action1 = action2 /\ tok1 = tok2.
Proof.
  intros H1 H2 Heq.
  destruct (build_shape mac action1 kw1 tok1 H1) as (_ & _ & _ & Hs1).
  destruct (build_shape mac action2 kw2 tok2 H2) as (_ & _ & _ & Hs2).
  destruct tok1 as [tc1 b1 au1], tok2 as [tc2 b2 au2].
  cbn [type_code body auth] in *.
  rewrite !to_digits_plain in Heq. cbn [type_code body auth] in Heq.
  destruct action1, action2;
    destruct Hs1 as (-> & Hs1); destruct Hs2 as (-> & Hs2);
    change (str_int 0) with (lit "0") in Heq;
    change (str_int 1) with (lit "1") in Heq;
    change (str_int 2) with (lit "2") in Heq;
    change (str_int 9) with (lit "9") in Heq;
    try (rewrite Hs1 in Heq); try (rewrite Hs2 in Heq);
    cbn [lit list_ascii_of_string app] in Heq;
    try discriminate Heq;
    (split; [reflexivity |]).
  - injection Heq as ->. now rewrite Hs1, Hs2.
  - injection Heq as ->. now rewrite Hs1, Hs2.
  - injection Heq as Heq.
    destruct (app_inj_length _ b1 b2 au1 au2) as (-> & ->);
      [congruence | assumption | reflexivity].
  - injection Heq as Heq.
    destruct (app_inj_length _ b1 b2 au1 au2) as (-> & ->);
      [congruence | assumption | reflexivity].
  - injection Heq as Heq.
    destruct (app_inj_length _ b1 b2 au1 au2) as (-> & ->);
      [congruence | assumption | reflexivity].
Qed.

Lemma serialisation_unambiguous_witness :
  let kw := Kwargs (Some 5) None (Some 123456789) None (Some zero_key) in
  let kw' :=
    Kwargs (Some 5) None (Some (123456789 + 2 ^ 48)) None (Some zero_key) in
  let tok := Token 1 (lit "9") (lit "199958") in
  build SipHash.hash ChannelOriginAction.UNLOCK_ACCESSORY kw = Ok tok /\
  build SipHash.hash ChannelOriginAction.UNLOCK_ACCESSORY kw' = Ok tok /\
  tok = tok.
Proof.
  intros kw kw' tok.
  assert (H : build SipHash.hash ChannelOriginAction.UNLOCK_ACCESSORY kw
              = Ok tok) by (vm_compute; reflexivity).
  assert (H' : build SipHash.hash ChannelOriginAction.UNLOCK_ACCESSORY kw'
               = Ok tok) by (vm_compute; reflexivity).
  split; [exact H |]. split; [exact H' |].
  exact (proj2 (serialisation_unambiguous SipHash.hash full_obscure_model
                  ChannelOriginAction.UNLOCK_ACCESSORY
                  ChannelOriginAction.UNLOCK_ACCESSORY kw kw' tok tok
                  H H' eq_refl)).
Defined.

(** ** More than ten digits *)

(** X12.  Asking [digits_from_siphash] for more than ten digits adds
    nothing but leading zeros: the tag is cut to 32 bits first, so for
    [n >= 10] the result is [n - 10] zeros followed by the ten-digit
    zero-padded decimal form of the tag's low 32 bits. *)
Theorem digits_from_siphash_beyond_ten
    (mac : bytes -> bytes -> Z) (f : SipHash_2_4) (n : nat) :
  (10 <= n)%nat ->
  digits_from_siphash mac f n
  = repeat "0"%char (n - 10) ++ ls_digits 10 (hash mac f mod 2 ^ 32).
Proof.
  intros Hn. rewrite digits_from_siphash_ls by lia.
  replace n with ((n - 10) + 10)%nat at 1 by lia.
  apply ls_digits_pad.
  pose proof (Z.mod_pos_bound (hash mac f) (2 ^ 32) ltac:(lia)).
  change (10 ^ Z.of_nat 10) with 10000000000. lia.
Qed.

Lemma digits_from_siphash_beyond_ten_witness :
  digits_from_siphash SipHash.hash (SipHash_2_4_new zero_key []) 12
  = lit "001937178839".
Proof.
  rewrite (digits_from_siphash_beyond_ten SipHash.hash
             (SipHash_2_4_new zero_key []) 12 ltac:(lia)).
  vm_compute. reflexivity.
Defined.

Lemma specific_mac_input_distinguishes_witness :
  exists pa pb : bytes,
    pa <> pb /\
    (exists ta,
        unlink_specific_accessory SipHash.hash 6 1 zero_key = Ok ta /\
        auth ta = ls_digits 6 (SipHash.hash zero_key pa mod 2 ^ 32)) /\
    (exists tb,
        unlink_specific_accessory SipHash.hash 16 1 zero_key = Ok tb /\
        auth tb = ls_digits 6 (SipHash.hash zero_key pb mod 2 ^ 32)).
Proof.
  destruct (specific_mac_input_distinguishes
              OriginCommandType.UNLINK_ACCESSORY 6 16 1 zero_key
              eq_refl ltac:(lia) ltac:(lia) ltac:(lia) ltac:(lia))
    as (pa & pb & Hne & Hmac).
  exists pa, pb. split; [exact Hne |]. exact (Hmac SipHash.hash).
Defined.
